(** * AI-Agent-Mortgage-Analytics: the query-resolution orchestrator

    A shallow embedding of [app/sql_guardrails.py], [app/agent.py] and the
    keyword strategy of [app/retrieval.py], followed by the properties of
    the natural-language specification that they satisfy.

    Modelling conventions.
    - Python [str] values are [string]s, read as UTF-8.  Characters are
      classified the way Python classifies 7-bit text: letter case, digits,
      the underscore and the ten ASCII characters for which [str.isspace]
      holds.  Bytes above 127 are carried along as symbols that have no
      case, are not white space and are not word characters.
    - The scores and the threshold that the orchestrator compares are
      binary floats, Rocq's primitive ones, and the comparison is the
      floating-point one.  The arithmetic of the keyword retriever (a
      quotient of two counts, its rounding to four decimals) is modelled in
      exact rationals; on a decimal tie that no float holds exactly (the
      first arises with a question of 160 words) Python follows the error
      of the float where the model goes to the even neighbour.
    - A Python [set] is a list together with an iteration order that is
      left arbitrary ([SetIter]).
    - [json.loads] is a decoder written out in [Json].
    - An exception is an outcome ([Py.result]); the collaborators
      (retriever, context builder, generative backend, table registry, SQL
      store) are the fields of a [World], they answer every call, and the
      calls made to them are recorded in an event log. *)

From Stdlib Require Import Bool Arith Lia List ZArith QArith Qround Lqa Sorted.
From Stdlib Require Import Ascii String DecimalString PrimFloat.
Import ListNotations.

#[local] Set Warnings "-inexact-float".
Local Close Scope Q_scope.
Local Open Scope nat_scope.
Local Open Scope bool_scope.
Local Open Scope list_scope.
Local Open Scope string_scope.

(** ** Python string primitives *)

Module PyStr.

(** [str.isspace] on 7-bit characters: TAB, LF, VT, FF, CR, the four
    separators 0x1c..0x1f and the blank.  The same class is used by
    [str.strip], [str.split] and the regular-expression escape [\s]. *)
Definition is_space (c : ascii) : bool :=
  let n := nat_of_ascii c in
  (Nat.leb 9 n && Nat.leb n 13) || (Nat.leb 28 n && Nat.leb n 32).

Definition is_upper (c : ascii) : bool :=
  let n := nat_of_ascii c in Nat.leb 65 n && Nat.leb n 90.

Definition is_lower (c : ascii) : bool :=
  let n := nat_of_ascii c in Nat.leb 97 n && Nat.leb n 122.

Definition is_digit (c : ascii) : bool :=
  let n := nat_of_ascii c in Nat.leb 48 n && Nat.leb n 57.

(** The class [[a-zA-Z0-9_]], which is also [\w] on 7-bit text. *)
Definition is_word (c : ascii) : bool :=
  is_upper c || is_lower c || is_digit c || Ascii.eqb c "_".

Definition upper_char (c : ascii) : ascii :=
  if is_lower c then ascii_of_nat (nat_of_ascii c - 32) else c.

Definition lower_char (c : ascii) : ascii :=
  if is_upper c then ascii_of_nat (nat_of_ascii c + 32) else c.

Fixpoint smap (f : ascii -> ascii) (s : string) : string :=
  match s with
  | EmptyString => EmptyString
  | String c r => String (f c) (smap f r)
  end.

(** [s.upper()] and [s.lower()]. *)
Definition upper (s : string) : string := smap upper_char s.
Definition lower (s : string) : string := smap lower_char s.

(** [s.startswith(p)]. *)
Fixpoint startswith (p s : string) : bool :=
  match p, s with
  | EmptyString, _ => true
  | String a p', String b s' => Ascii.eqb a b && startswith p' s'
  | String _ _, EmptyString => false
  end.

(** [s] without the prefix [p], when it has that prefix. *)
Fixpoint strip_prefix (p s : string) : option string :=
  match p, s with
  | EmptyString, _ => Some s
  | String a p', String b s' => if Ascii.eqb a b then strip_prefix p' s' else None
  | String _ _, EmptyString => None
  end.

(** [p in s]: [p] occurs as a contiguous substring of [s]. *)
Fixpoint contains (p s : string) : bool :=
  startswith p s ||
  match s with
  | EmptyString => false
  | String _ r => contains p r
  end.

(** [s.lstrip()], [s.rstrip()] and [s.strip()]. *)
Fixpoint lstrip (s : string) : string :=
  match s with
  | EmptyString => EmptyString
  | String c r => if is_space c then lstrip r else s
  end.

Fixpoint rstrip (s : string) : string :=
  match s with
  | EmptyString => EmptyString
  | String c r =>
      match rstrip r with
      | EmptyString => if is_space c then EmptyString else String c EmptyString
      | r' => String c r'
      end
  end.

Definition strip (s : string) : string := rstrip (lstrip s).

(** [s.endswith(";")], specialised to a one-character suffix. *)
Fixpoint ends_with_char (c : ascii) (s : string) : bool :=
  match s with
  | EmptyString => false
  | String a EmptyString => Ascii.eqb a c
  | String _ r => ends_with_char c r
  end.

(** [s[:-1]]. *)
Fixpoint drop_last (s : string) : string :=
  match s with
  | EmptyString => EmptyString
  | String _ EmptyString => EmptyString
  | String c r => String c (drop_last r)
  end.

(** The longest prefix whose characters satisfy [p], and what follows it. *)
Fixpoint span (p : ascii -> bool) (s : string) : string * string :=
  match s with
  | EmptyString => (EmptyString, EmptyString)
  | String c r =>
      if p c then let (a, b) := span p r in (String c a, b)
      else (EmptyString, s)
  end.

(** [s[n:]]. *)
Fixpoint drop (n : nat) (s : string) : string :=
  match n, s with
  | O, _ => s
  | S n', String _ r => drop n' r
  | S _, EmptyString => EmptyString
  end.

(** [s.split(";")[0]], specialised to a one-character separator: the text
    before the first occurrence of the separator. *)
Fixpoint before_char (c : ascii) (s : string) : string :=
  match s with
  | EmptyString => EmptyString
  | String a r => if Ascii.eqb a c then EmptyString else String a (before_char c r)
  end.

(** [s.index(p)] for a [p] known to occur; [None] stands for [ValueError]. *)
Fixpoint index_of (p s : string) : option nat :=
  if startswith p s then Some 0
  else match s with
       | EmptyString => None
       | String _ r => option_map S (index_of p r)
       end.

(** [s.split()]: the maximal runs of characters that are not white space.
    [acc] holds the current run, most recent character first. *)
Fixpoint rev_string (acc s : string) : string :=
  match s with
  | EmptyString => acc
  | String c r => rev_string (String c acc) r
  end.

Fixpoint split_ws_aux (acc : string) (s : string) : list string :=
  match s with
  | EmptyString =>
      match acc with
      | EmptyString => []
      | _ => [rev_string EmptyString acc]
      end
  | String c r =>
      if is_space c then
        match acc with
        | EmptyString => split_ws_aux EmptyString r
        | _ => rev_string EmptyString acc :: split_ws_aux EmptyString r
        end
      else split_ws_aux (String c acc) r
  end.

Definition split_ws (s : string) : list string := split_ws_aux EmptyString s.





(** The line feed, as a text. *)
Definition nl : string := String (ascii_of_nat 10) EmptyString.

(** [str(n)] for an [int]. *)
Definition str_of_Z (n : Z) : string := NilZero.string_of_int (Z.to_int n).

End PyStr.

(** ** Iteration over a Python set

    The source iterates over two sets, [BLOCKED_KEYWORDS] and the set of
    table names found in a statement.  Python fixes neither order, so the
    model takes the order as a parameter: any function that lists exactly
    the members of its argument, each once. *)

Record SetIter : Type := {
  iter_set : list string -> list string;
  iter_set_In : forall l x, In x (iter_set l) <-> In x l;
  iter_set_NoDup : forall l, NoDup (iter_set l)
}.

(** The order in which members were first written. *)
Definition first_seen : SetIter :=
  {| iter_set := nodup string_dec;
     iter_set_In := fun l x => nodup_In string_dec l x;
     iter_set_NoDup := NoDup_nodup string_dec |}.

(** The reverse of it: a second order, to try statements against. *)
Definition last_seen : SetIter :=
  {| iter_set := fun l => rev (nodup string_dec l);
     iter_set_In := fun l x =>
       iff_trans (iff_sym (in_rev (nodup string_dec l) x))
                 (nodup_In string_dec l x);
     iter_set_NoDup := fun l => NoDup_rev (NoDup_nodup string_dec l) |}.

(** ** [app/sql_guardrails.py] *)

Module Guardrails.
Import PyStr.

Definition BLOCKED_KEYWORDS : list string :=
  ["insert"; "update"; "delete"; "drop"; "alter"; "create"; "truncate";
   "grant"; "revoke"; "execute"; "exec"; "xp_"; "sp_"; ";--"; "/*"; "*/"].

Definition ALLOWED_TABLES : list string :=
  ["cpfb_state_delinquency_30_89"; "cpfb_state_delinquency_90_plus";
   "cpfb_metro_delinquency_30_89"; "cpfb_metro_delinquency_90_plus";
   "fred_mortgage_rates"; "fhfa_hpi_state"].

(** A literal of a pattern compiled with [re.IGNORECASE], matched at the
    head of [s]; the result is what follows the literal. *)
Fixpoint match_nocase (lit s : string) : option string :=
  match lit, s with
  | EmptyString, _ => Some s
  | String a lit', String b s' =>
      if Ascii.eqb (upper_char a) (upper_char b) then match_nocase lit' s'
      else None
  | String _ _, EmptyString => None
  end.

(** One attempt of the pattern [KW\s+(?:[\w]+\.)?([a-zA-Z0-9_]+)] at the
    head of [s] (the word boundary in front of [KW] is checked by the
    caller).  The result is the captured group and the length of the whole
    match.  The white space and both names are matched greedily; when a dot
    follows the first name but no name follows the dot, the optional
    qualifier is given up and the first name is the capture. *)
Definition table_ref_at (kw s : string) : option (string * nat) :=
  match match_nocase kw s with
  | None => None
  | Some r1 =>
      let (ws, r2) := span is_space r1 in
      match ws with
      | EmptyString => None
      | _ =>
          let (w1, r3) := span is_word r2 in
          match w1 with
          | EmptyString => None
          | _ =>
              let n1 := String.length kw + String.length ws + String.length w1 in
              match strip_prefix "." r3 with
              | Some r4 =>
                  let (w2, _) := span is_word r4 in
                  match w2 with
                  | EmptyString => Some (w1, n1)
                  | _ => Some (w2, n1 + 1 + String.length w2)
                  end
              | None => Some (w1, n1)
              end
          end
      end
  end.

(** [re.findall] of that pattern preceded by [\b]: a scan from left to
    right in which matches do not overlap.  [skip] counts the characters
    of the last match still to be passed over; [prev_word] tells whether
    the character in front of the head is a word character. *)
Fixpoint findall_refs (kw : string) (skip : nat) (prev_word : bool)
                      (s : string) : list string :=
  match s with
  | EmptyString => []
  | String c r =>
      match skip with
      | S k => findall_refs kw k (is_word c) r
      | O =>
          match (if prev_word then None else table_ref_at kw s) with
          | Some (t, n) => t :: findall_refs kw (n - 1) (is_word c) r
          | None => findall_refs kw 0 (is_word c) r
          end
      end
  end.

Definition findall_tables (kw sql : string) : list string :=
  findall_refs kw 0 false sql.

(** The test of the keyword loop. *)
Definition keyword_hit (sql kw : string) : bool :=
  contains (upper kw) (upper (strip sql)) || contains (lower kw) (lower sql).

(** [tables = allowed_tables or ALLOWED_TABLES]: [None] and the empty set
    are both false in Python, and both select the built-in list. *)
Definition tables_in_force (allowed_tables : option (list string)) : list string :=
  match allowed_tables with
  | Some (t :: l) => t :: l
  | Some [] | None => ALLOWED_TABLES
  end.

(** [t.lower() not in {x.lower() for x in tables}]. *)
Definition table_disallowed (tables : list string) (t : string) : bool :=
  negb (existsb (String.eqb (lower t)) (map lower tables)).

(** [validate_sql(sql, allowed_tables)].  Each [for] loop that returns from
    its body is a [find] over the set in its iteration order. *)
Definition validate_sql (ord : SetIter) (sql : string)
                        (allowed_tables : option (list string)) : bool * string :=
  if String.eqb sql "" || String.eqb (strip sql) "" then (false, "Empty SQL")
  else
    match find (keyword_hit sql) (iter_set ord BLOCKED_KEYWORDS) with
    | Some kw => (false, "Blocked keyword: " ++ kw)
    | None =>
        let tables := tables_in_force allowed_tables in
        let from_match := findall_tables "FROM" sql in
        let join_match := findall_tables "JOIN" sql in
        let all_tables := iter_set ord (from_match ++ join_match)%list in
        match find (table_disallowed tables) all_tables with
        | Some t => (false, "Table not allowed: " ++ t)
        | None => (true, "")
        end
    end.

(** [add_limit_if_missing(sql, default_limit)]. *)
Definition add_limit_if_missing (sql : string) (default_limit : Z) : string :=
  let s := strip sql in
  if contains "LIMIT" (upper s) then s
  else
    let s := if ends_with_char ";" (rstrip s) then drop_last (rstrip s) else s in
    s ++ " LIMIT " ++ str_of_Z default_limit.

(** The default of the parameter [default_limit]. *)
Definition default_limit : Z := 1000.

(** *** Vocabulary of the specification *)

(** [kw] occurs in [sql] when letter case is disregarded. *)
Definition occurs_nocase (kw sql : string) : Prop :=
  exists a m b, sql = a ++ m ++ b /\ lower m = lower kw.

(** [t] is a member of [tables] when letter case is disregarded. *)
Definition member_nocase (t : string) (tables : list string) : Prop :=
  exists a, In a tables /\ lower a = lower t.


(** The names that the pattern scan finds after [FROM] and after [JOIN]. *)
Definition referenced_tables (sql : string) : list string :=
  (findall_tables "FROM" sql ++ findall_tables "JOIN" sql)%list.

End Guardrails.

(** ** Python values and [json.loads]

    The values that [json.loads] produces.  An [int] is an integer of
    unbounded size.  A [float] keeps its lexeme: the source only tests
    floats that come out of JSON for truth.  A [dict] is the list of its
    items in insertion order, without repeated keys. *)

Module Py.
Import PyStr.

#[local] Set Warnings "-register-all".

Inductive value : Type :=
| None_
| Bool (b : bool)
| Int (n : Z)
| Float (lexeme : string)
| Str (s : string)
| List_ (l : list value)
| Dict (d : list (string * value)).

Definition dict : Type := list (string * value).

(** [d[k] = v]. *)
Fixpoint dict_set (k : string) (v : value) (d : dict) : dict :=
  match d with
  | [] => [(k, v)]
  | (k', v') :: r =>
      if String.eqb k k' then (k, v) :: r else (k', v') :: dict_set k v r
  end.

(** [k in d]. *)
Definition dict_mem (k : string) (d : dict) : bool :=
  existsb (fun kv => String.eqb k (fst kv)) d.

(** [d.get(k, default)]; [d.get(k)] is [dict_get k None_ d]. *)
Fixpoint dict_get (k : string) (default : value) (d : dict) : value :=
  match d with
  | [] => default
  | (k', v) :: r => if String.eqb k k' then v else dict_get k default r
  end.

(** The digits of the mantissa of a float lexeme are not all zero: the
    number it denotes is not zero. *)
Fixpoint mantissa_nonzero (s : string) : bool :=
  match s with
  | EmptyString => false
  | String c r =>
      if Ascii.eqb c "e" || Ascii.eqb c "E" then false
      else (is_digit c && negb (Ascii.eqb c "0")) || mantissa_nonzero r
  end.

(** [bool(v)], the test behind [if v] and [not v]. *)
Definition truthy (v : value) : bool :=
  match v with
  | None_ => false
  | Bool b => b
  | Int n => negb (Z.eqb n 0)
  | Float lex =>
      String.eqb lex "NaN" || String.eqb lex "Infinity"
      || String.eqb lex "-Infinity" || mantissa_nonzero lex
  | Str s => negb (String.eqb s "")
  | List_ l => match l with [] => false | _ => true end
  | Dict d => match d with [] => false | _ => true end
  end.

(** [type(v).__name__]. *)
Definition type_name (v : value) : string :=
  match v with
  | None_ => "NoneType"
  | Bool _ => "bool"
  | Int _ => "int"
  | Float _ => "float"
  | Str _ => "str"
  | List_ _ => "list"
  | Dict _ => "dict"
  end.

(** The outcome of a call: a value, or an exception [e], of which the
    model keeps the message [str(e)]. *)
Inductive result (A : Type) : Type :=
| Return (a : A)
| Raise (exn : string).
Arguments Return {A} a.
Arguments Raise {A} exn.

End Py.

Module Json.
Import PyStr Py.

(** The double quote. *)
Definition dq : ascii := ascii_of_nat 34.

(** [s] between double quotes. *)
Definition quoted (s : string) : string := String dq (s ++ String dq EmptyString).

(** JSON white space: blank, TAB, LF, CR. *)
Definition is_json_ws (c : ascii) : bool :=
  Ascii.eqb c " " || Ascii.eqb c (ascii_of_nat 9)
  || Ascii.eqb c (ascii_of_nat 10) || Ascii.eqb c (ascii_of_nat 13).

Fixpoint skip_ws (s : string) : string :=
  match s with
  | String c r => if is_json_ws c then skip_ws r else s
  | EmptyString => s
  end.

Definition hex_val (c : ascii) : option N :=
  let n := N_of_ascii c in
  if is_digit c then Some (n - 48)%N
  else if (N.leb 97 n && N.leb n 102) then Some (n - 87)%N
  else if (N.leb 65 n && N.leb n 70) then Some (n - 55)%N
  else None.

Definition hex4 (a b c d : ascii) : option N :=
  match hex_val a, hex_val b, hex_val c, hex_val d with
  | Some x, Some y, Some z, Some w => Some (((x * 16 + y) * 16 + z) * 16 + w)%N
  | _, _, _, _ => None
  end.

(** The UTF-8 bytes of a code point (a lone surrogate gets the three bytes
    of its number). *)
Definition utf8 (n : N) : string :=
  let byte (k : N) := ascii_of_N k in
  let cont (k : N) := byte (128 + k mod 64)%N in
  if (n <? 128)%N then String (byte n) EmptyString
  else if (n <? 2048)%N then
    String (byte (192 + n / 64)%N) (String (cont n) EmptyString)
  else if (n <? 65536)%N then
    String (byte (224 + n / 4096)%N)
      (String (cont (n / 64)%N) (String (cont n) EmptyString))
  else
    String (byte (240 + n / 262144)%N)
      (String (cont (n / 4096)%N)
         (String (cont (n / 64)%N) (String (cont n) EmptyString))).

Definition is_high_surrogate (n : N) : bool := (N.leb 55296 n && N.leb n 56319)%N.
Definition is_low_surrogate (n : N) : bool := (N.leb 56320 n && N.leb n 57343)%N.

Definition join_surrogates (hi lo : N) : N :=
  (65536 + (hi - 55296) * 1024 + (lo - 56320))%N.

(** The text that a pending high surrogate contributes when no low
    surrogate follows it. *)
Definition flush (pending : option N) : string :=
  match pending with
  | Some hi => utf8 hi
  | None => EmptyString
  end.

(** The character that a one-letter escape stands for. *)
Definition simple_escape (c : ascii) : option ascii :=
  if Ascii.eqb c dq then Some dq
  else if Ascii.eqb c "\" then Some "\"%char
  else if Ascii.eqb c "/" then Some "/"%char
  else if Ascii.eqb c "b" then Some (ascii_of_nat 8)
  else if Ascii.eqb c "f" then Some (ascii_of_nat 12)
  else if Ascii.eqb c "n" then Some (ascii_of_nat 10)
  else if Ascii.eqb c "r" then Some (ascii_of_nat 13)
  else if Ascii.eqb c "t" then Some (ascii_of_nat 9)
  else None.

(** The body of a JSON string, after its opening quote: the decoded text
    and what follows the closing quote.  Control characters are refused
    (the decoder is strict); a high surrogate escape followed by a low one
    stands for one code point. *)
Fixpoint scan_string (pending : option N) (s : string) : option (string * string) :=
  match s with
  | EmptyString => None
  | String c r =>
      if Ascii.eqb c dq then Some (flush pending, r)
      else if Ascii.eqb c "\" then
        match r with
        | String e r1 =>
            if Ascii.eqb e "u" then
              match r1 with
              | String h1 (String h2 (String h3 (String h4 r'))) =>
                  match hex4 h1 h2 h3 h4 with
                  | None => None
                  | Some v =>
                      match pending with
                      | Some hi =>
                          if is_low_surrogate v then
                            option_map
                              (fun p => (utf8 (join_surrogates hi v) ++ fst p, snd p))
                              (scan_string None r')
                          else if is_high_surrogate v then
                            option_map (fun p => (utf8 hi ++ fst p, snd p))
                                       (scan_string (Some v) r')
                          else
                            option_map (fun p => (utf8 hi ++ utf8 v ++ fst p, snd p))
                                       (scan_string None r')
                      | None =>
                          if is_high_surrogate v then scan_string (Some v) r'
                          else option_map (fun p => (utf8 v ++ fst p, snd p))
                                          (scan_string None r')
                      end
                  end
              | _ => None
              end
            else
              match simple_escape e with
              | Some x =>
                  option_map (fun p => (flush pending ++ String x (fst p), snd p))
                             (scan_string None r1)
              | None => None
              end
        | EmptyString => None
        end
      else if Nat.ltb (nat_of_ascii c) 32 then None
      else option_map (fun p => (flush pending ++ String c (fst p), snd p))
                      (scan_string None r)
  end.

(** A JSON number at the head of [s], as the decoder's pattern matches it:
    an optional minus sign; a zero, or a digit other than zero and the
    digits after it; then, each only if complete, a fraction (a dot and at
    least one digit) and an exponent (e or E, an optional sign, at least one
    digit).  Each part gives its lexeme and what follows it. *)
Definition scan_sign (s : string) : string * string :=
  match strip_prefix "-" s with
  | Some r => ("-", r)
  | None => (EmptyString, s)
  end.

Definition scan_int_part (s : string) : option (string * string) :=
  match s with
  | String c r =>
      if is_digit c then
        Some (if Ascii.eqb c "0" then (String c EmptyString, r) else span is_digit s)
      else None
  | EmptyString => None
  end.

Definition scan_fraction (s : string) : string * string :=
  match strip_prefix "." s with
  | Some r =>
      let (ds, r') := span is_digit r in
      if String.eqb ds "" then (EmptyString, s) else (String "." ds, r')
  | None => (EmptyString, s)
  end.

Definition scan_exp_sign (s : string) : string * string :=
  match strip_prefix "-" s, strip_prefix "+" s with
  | Some r, _ => ("-", r)
  | None, Some r => ("+", r)
  | None, None => (EmptyString, s)
  end.

Definition scan_exponent (s : string) : string * string :=
  match s with
  | String e r =>
      if Ascii.eqb e "e" || Ascii.eqb e "E" then
        let (sg, r') := scan_exp_sign r in
        let (ds, r'') := span is_digit r' in
        if String.eqb ds "" then (EmptyString, s) else (String e (sg ++ ds), r'')
      else (EmptyString, s)
  | EmptyString => (EmptyString, s)
  end.

(** The lexeme of the number, whether it has a fraction or an exponent,
    and the rest. *)
Definition scan_number (s : string) : option (string * bool * string) :=
  let (sign, r0) := scan_sign s in
  match scan_int_part r0 with
  | None => None
  | Some (int_digits, r2) =>
      let (frac, r3) := scan_fraction r2 in
      let (exp, r4) := scan_exponent r3 in
      Some (sign ++ int_digits ++ frac ++ exp,
            negb (String.eqb frac "" && String.eqb exp ""), r4)
  end.

(** [int(lexeme)] for an optional sign followed by digits. *)
Fixpoint digits_value (acc : Z) (s : string) : Z :=
  match s with
  | EmptyString => acc
  | String c r => digits_value (10 * acc + Z.of_nat (nat_of_ascii c - 48))%Z r
  end.

Definition int_of_lexeme (s : string) : Z :=
  match strip_prefix "-" s with
  | Some r => (- digits_value 0 r)%Z
  | None => digits_value 0 s
  end.

(** A value that is a word of the language: the three literals of JSON
    and, after numbers have been tried, the three that Python adds. *)
Definition scan_literal (s : string) : option (value * string) :=
  match strip_prefix "null" s, strip_prefix "true" s, strip_prefix "false" s with
  | Some r', _, _ => Some (None_, r')
  | None, Some r', _ => Some (Bool true, r')
  | None, None, Some r' => Some (Bool false, r')
  | None, None, None =>
      match scan_number s with
      | Some (lex, is_float, r') =>
          Some (if is_float then Float lex else Int (int_of_lexeme lex), r')
      | None =>
          match strip_prefix "NaN" s, strip_prefix "Infinity" s,
                strip_prefix "-Infinity" s with
          | Some r', _, _ => Some (Float "NaN", r')
          | None, Some r', _ => Some (Float "Infinity", r')
          | None, None, Some r' => Some (Float "-Infinity", r')
          | None, None, None => None
          end
      end
  end.

(** One JSON value at the head of [s] and what follows it.  The three
    functions share one budget of recursive calls; [loads] grants a budget
    that no text uses up ([scan_fuel_enough] below). *)
Fixpoint scan_value (fuel : nat) (s : string) {struct fuel} : option (value * string) :=
  match fuel with
  | O => None
  | S fuel' =>
      match s with
      | EmptyString => None
      | String c r =>
          if Ascii.eqb c dq then
            option_map (fun p => (Str (fst p), snd p)) (scan_string None r)
          else if Ascii.eqb c "{" then
            match strip_prefix "}" (skip_ws r) with
            | Some r' => Some (Dict [], r')
            | None => option_map (fun p => (Dict (fst p), snd p))
                                 (scan_members fuel' [] (skip_ws r))
            end
          else if Ascii.eqb c "[" then
            match strip_prefix "]" (skip_ws r) with
            | Some r' => Some (List_ [], r')
            | None => option_map (fun p => (List_ (fst p), snd p))
                                 (scan_elements fuel' (skip_ws r))
            end
          else scan_literal s
      end
  end
(** The members of an object, the head standing at the opening quote of a
    key; [acc] is the dictionary built so far. *)
with scan_members (fuel : nat) (acc : dict) (s : string) {struct fuel}
  : option (dict * string) :=
  match fuel with
  | O => None
  | S fuel' =>
      match strip_prefix (String dq EmptyString) s with
      | None => None
      | Some r =>
          match scan_string None r with
          | None => None
          | Some (key, r1) =>
              match strip_prefix ":" (skip_ws r1) with
              | None => None
              | Some r2 =>
                  match scan_value fuel' (skip_ws r2) with
                  | None => None
                  | Some (v, r3) =>
                      let acc' := dict_set key v acc in
                      match strip_prefix "}" (skip_ws r3),
                            strip_prefix "," (skip_ws r3) with
                      | Some r4, _ => Some (acc', r4)
                      | None, Some r4 => scan_members fuel' acc' (skip_ws r4)
                      | None, None => None
                      end
                  end
              end
          end
      end
  end
(** The elements of a non-empty array, the head standing at a value. *)
with scan_elements (fuel : nat) (s : string) {struct fuel}
  : option (list value * string) :=
  match fuel with
  | O => None
  | S fuel' =>
      match scan_value fuel' s with
      | None => None
      | Some (v, r1) =>
          match strip_prefix "]" (skip_ws r1), strip_prefix "," (skip_ws r1) with
          | Some r2, _ => Some ([v], r2)
          | None, Some r2 =>
              option_map (fun p => (v :: fst p, snd p))
                         (scan_elements fuel' (skip_ws r2))
          | None, None => None
          end
      end
  end.

(** [json.loads(s)]: one value with white space around it and nothing
    else.  [None] stands for [json.JSONDecodeError]. *)
Definition loads (s : string) : option value :=
  match scan_value (S (2 * String.length s)) (skip_ws s) with
  | Some (v, r) =>
      match skip_ws r with
      | EmptyString => Some v
      | _ => None
      end
  | None => None
  end.

End Json.

(** ** [app/agent.py]: the response parser *)

Module Parser.
Import PyStr Py Json.

(** What [_extract_sql_from_response] returns: the 4-tuple
    [(sql, meta, needs_clarification, clarifying question or reason)].
    [meta] is [None] or a dictionary, of which [None] is the Python
    [None]. *)
Record extracted : Type := {
  ex_sql : value;
  ex_meta : option dict;
  ex_needs_clar : bool;
  ex_message : value
}.

Definition is_brace (c : ascii) : bool := Ascii.eqb c "{" || Ascii.eqb c "}".

(** One attempt of the pattern [\{[^{}]*"sql"[^{}]*\}] at the head of [s].
    Between the opening brace and the closing one the pattern admits no
    brace, so a match ends at the first brace after the opening one, which
    has to be a closing brace, and the text in between has to contain the
    quoted key.  The result is the matched text. *)
Definition json_block_at (s : string) : option string :=
  match strip_prefix "{" s with
  | Some r =>
      let (body, rest) := span (fun c => negb (is_brace c)) r in
      match strip_prefix "}" rest with
      | Some _ =>
          if contains (quoted "sql") body then Some ("{" ++ body ++ "}") else None
      | None => None
      end
  | None => None
  end.

(** [re.search] of that pattern: the leftmost position with a match. *)
Fixpoint search_json_block (s : string) : option string :=
  match json_block_at s with
  | Some m => Some m
  | None =>
      match s with
      | EmptyString => None
      | String _ r => search_json_block r
      end
  end.

(** The text before the first occurrence of [p] in [s]. *)
Fixpoint before_substring (p s : string) : option string :=
  if startswith p s then Some EmptyString
  else match s with
       | EmptyString => None
       | String c r => option_map (String c) (before_substring p r)
       end.

Definition fence : string := "```".

(** One attempt of the pattern [```(?:sql)?\s*([\s\S]*?)```] at the head of
    [s]: the opening fence, the tag [sql] when it is there, all the white
    space that follows, and then the shortest text up to a closing fence.
    The result is that text, the group of the pattern.  (A closing fence
    cannot begin inside the tag or inside the white space, so giving either
    back never yields a match where this attempt finds none.) *)
Definition fenced_at (s : string) : option string :=
  match strip_prefix fence s with
  | None => None
  | Some r0 =>
      let r1 := match strip_prefix "sql" r0 with
                | Some r => r
                | None => r0
                end in
      before_substring fence (lstrip r1)
  end.

Fixpoint search_fenced (s : string) : option string :=
  match fenced_at s with
  | Some g => Some g
  | None =>
      match s with
      | EmptyString => None
      | String _ r => search_fenced r
      end
  end.

(** The body of the [try] block: what is returned for a decoded object.
    [obj.get] exists on a dictionary only. *)
Definition from_object (obj : value) : result extracted :=
  match obj with
  | Dict d =>
      if truthy (dict_get "needs_clarification" None_ d) then
        Return {| ex_sql := None_; ex_meta := None; ex_needs_clar := true;
                  ex_message := dict_get "clarifying_question" None_ d |}
      else
        let sql := dict_get "sql" None_ d in
        let meta := fold_right
                      (fun k m => if dict_mem k d then (k, dict_get k None_ d) :: m else m)
                      [] ["assumptions"; "tables_used"; "explanation"] in
        Return {| ex_sql := sql; ex_meta := Some meta; ex_needs_clar := false;
                  ex_message := None_ |}
  | v => Raise ("'" ++ type_name v ++ "' object has no attribute 'get'")
  end.

Definition no_sql_reason : string := "Could not extract SQL from response".

(** The part of the function after the [try] block: the code block, the
    raw [SELECT], the failure. *)
Definition extract_unstructured (text : string) : extracted :=
  match search_fenced text with
  | Some g =>
      {| ex_sql := Str (strip g); ex_meta := Some []; ex_needs_clar := false;
         ex_message := None_ |}
  | None =>
      let failure := {| ex_sql := None_; ex_meta := None; ex_needs_clar := false;
                        ex_message := Str no_sql_reason |} in
      if contains "SELECT" (upper text) then
        match index_of "SELECT" (upper text) with
        | Some start =>
            let sql := strip (before_char ";" (drop start text)) in
            if negb (String.eqb sql "") then
              {| ex_sql := Str (if negb (ends_with_char ";" sql) then sql ++ ";" else sql);
                 ex_meta := Some []; ex_needs_clar := false; ex_message := None_ |}
            else failure
        | None => failure
        end
      else failure
  end.

(** [_extract_sql_from_response(text)]. *)
Definition _extract_sql_from_response (text : string) : result extracted :=
  let text := strip text in
  match search_json_block text with
  | Some m =>
      match loads m with
      | Some obj => from_object obj
      | None => Return (extract_unstructured text)
      end
  | None => Return (extract_unstructured text)
  end.

(** *** Vocabulary of the specification: the three variants *)

(** The outcome of the structured strategy on a trimmed text: the decoded
    object, or nothing when no block is found or the block does not
    decode. *)
Definition structured (t : string) : option value :=
  match search_json_block t with
  | Some m => loads m
  | None => None
  end.





End Parser.

(** ** [app/retrieval.py]: the keyword strategy of [MetadataRetriever.retrieve] *)

Module Retrieval.
Import PyStr.

(** A row of [SELECT dataset_id, dataset_name, description FROM
    nlq_dataset_registry]. *)
Record dataset_row : Type := {
  row_id : string;
  row_name : string;
  row_desc : string
}.

(** An item of the list that [retrieve] returns, over the type [S] of its
    score: a binary float in Python, an exact rational where this file
    reasons about the arithmetic of the keyword strategy. *)
Record candidate (S : Type) : Type := {
  dataset_id : string;
  label : string;
  why : string;
  score : S
}.
Arguments dataset_id {S} _.
Arguments label {S} _.
Arguments why {S} _.
Arguments score {S} _.

(** [sum(1 for w in ql.split() if len(w) > 2 and w in text)]. *)
Definition matched_words (ql text : string) : nat :=
  List.length
    (filter (fun w => Nat.ltb 2 (String.length w) && contains w text) (split_ws ql)).

(** The score of one row: the quotient of the number of matched words by
    [max(len(ql.split()), 1)]. *)
Definition keyword_score (ql : string) (row : dataset_row) : Q :=
  let text := lower (row_name row ++ " " ++ row_desc row) in
  Qmake (Z.of_nat (matched_words ql text))
        (Pos.of_nat (Nat.max (List.length (split_ws ql)) 1)).

(** The nearest integer, a tie going to the even one. *)
Definition round_half_even (q : Q) : Z :=
  let f := Qfloor q in
  match Qcompare (q - inject_Z f) (1 # 2) with
  | Lt => f
  | Gt => (f + 1)%Z
  | Eq => if Z.even f then f else (f + 1)%Z
  end.

(** [round(x, 4)]: the nearest multiple of one ten-thousandth. *)
Definition round4 (q : Q) : Q := Qmake (round_half_even (q * 10000)) 10000.

(** [candidates.sort(key=lambda x: -x[3])]: a stable sort, highest score
    first.  [insert_by_score x l] puts [x], which stood before every member
    of [l], in front of the first member whose score is not higher. *)
Fixpoint insert_by_score (x : dataset_row * Q) (l : list (dataset_row * Q))
  : list (dataset_row * Q) :=
  match l with
  | [] => [x]
  | y :: r =>
      if Qle_bool (snd y) (snd x) then x :: y :: r
      else y :: insert_by_score x r
  end.

Definition sort_by_score (l : list (dataset_row * Q)) : list (dataset_row * Q) :=
  fold_right insert_by_score [] l.

(** The rows with a positive score, each with its score, in store order. *)
Definition scored_rows (ql : string) (rows : list dataset_row)
  : list (dataset_row * Q) :=
  filter (fun c => negb (Qle_bool (snd c) 0))
         (map (fun row => (row, keyword_score ql row)) rows).

Definition to_candidate (c : dataset_row * Q) : candidate Q :=
  {| dataset_id := row_id (fst c); label := row_name (fst c);
     why := row_desc (fst c); score := round4 (snd c) |}.

(** [retrieve(question)] when no vector backend is available, over the
    rows of the dataset registry. *)
Definition retrieve (rows : list dataset_row) (top_k : nat) (question : string)
  : list (candidate Q) :=
  let ql := lower question in
  map to_candidate (firstn top_k (sort_by_score (scored_rows ql rows))).

(** The binary float nearest to a rational with a small numerator and
    denominator: both are floats exactly, and the division rounds to
    nearest. *)
Fixpoint float_of_pos (p : positive) : float :=
  match p with
  | xH => 1%float
  | xO p' => PrimFloat.mul 2 (float_of_pos p')
  | xI p' => PrimFloat.add (PrimFloat.mul 2 (float_of_pos p')) 1
  end.

Definition float_of_Z (z : Z) : float :=
  match z with
  | Z0 => 0%float
  | Zpos p => float_of_pos p
  | Zneg p => PrimFloat.opp (float_of_pos p)
  end.

Definition float_of_Q (q : Q) : float :=
  PrimFloat.div (float_of_Z (Qnum q)) (float_of_pos (Qden q)).

(** The list as Python holds it: each rounded score is the float nearest
    to that decimal number. *)
Definition retrieve_floats (rows : list dataset_row) (top_k : nat)
                           (question : string) : list (candidate float) :=
  map (fun c => {| dataset_id := dataset_id c; label := label c; why := why c;
                   score := float_of_Q (score c) |})
      (retrieve rows top_k question).

(** The order of the sorted list: no later score is higher. *)
Definition by_score (a b : dataset_row * Q) : Prop := (snd b <= snd a)%Q.

(** The default of [top_k]. *)
Definition default_top_k : nat := 3.

End Retrieval.

(** ** [app/agent.py]: the orchestrator *)

Module Agent.
Import PyStr Py Guardrails Parser Retrieval.

(** A result set: the column names and the rows, each row a dictionary. *)
Definition rows : Type := list (list (string * value)).

(** The collaborators of an [NLQAgent] and the state they answer from. *)
Record World : Type := {
  (** the iteration order of this process's sets *)
  set_order : SetIter;
  (** [self.retriever.retrieve] *)
  retriever_retrieve : string -> list (candidate float);
  (** [self._build_context], a reading of the metadata store *)
  build_context : string -> string;
  (** [self._get_llm()]: [None], or the text that [llm.invoke] answers to
      a user prompt under [SYSTEM_PROMPT] *)
  llm : option (string -> string);
  (** the rows [(schema_name, table_name)] of [nlq_table_registry] of a
      dataset *)
  table_registry : string -> list (string * string);
  (** [conn.execute(sql)] with its columns and rows, or the exception that
      the store raises *)
  store_execute : string -> result (list string * rows)
}.

(** The calls made to the collaborators. *)
Inductive event : Type :=
| EvRetrieve (question : string)
| EvContext (dataset : string)
| EvGenerate (prompt : string)
| EvRegistry (dataset : string)
| EvExecute (sql : string).

(** A computation that logs the calls it makes. *)
Definition M (A : Type) : Type := A * list event.

Definition ret {A : Type} (a : A) : M A := (a, []).

Definition bind {A B : Type} (m : M A) (k : A -> M B) : M B :=
  let (a, l1) := m in
  let (b, l2) := k a in
  (b, (l1 ++ l2)%list).

Definition emit (e : event) : M unit := (tt, [e]).

Notation "x <- m ;; k" := (bind m (fun x => k))
  (at level 61, m at next level, right associativity).
Notation "m ;; k" := (bind m (fun _ => k))
  (at level 61, right associativity).

(** An item of [choices]. *)
Record choice : Type := {
  choice_dataset_id : string;
  choice_label : string;
  choice_why : string
}.

(** The dictionary under the key [explanation] of an [ok] response. *)
Record explanation : Type := {
  expl_tables : value;
  expl_assumptions : option value;
  expl_notes : value
}.

(** The dictionary that [query] returns, by its [status].  An optional
    field is a key that the dictionary may lack. *)
Inductive response : Type :=
| RespError (message : value) (sql : option value) (dataset : option string)
| RespNeedsSelection (choices : list choice) (message : string)
| RespNeedsClarification (clarifying_question : value)
| RespOk (dataset : string) (sql : value) (columns : list string)
         (result_rows : rows) (expl : explanation).

(** [execute_sql(sql)].  The argument is whatever the parser extracted;
    [add_limit_if_missing] calls [sql.strip()], which only a [str] has. *)
Definition execute_sql (w : World) (sql : value) : M (result (list string * rows)) :=
  match sql with
  | Str s =>
      let s := add_limit_if_missing s default_limit in
      let (ok, err) := validate_sql (set_order w) s None in
      if negb ok then ret (Raise err)
      else
        emit (EvExecute s) ;;
        ret (store_execute w s)
  | v => ret (Raise ("'" ++ type_name v ++ "' object has no attribute 'strip'"))
  end.

(** [_fallback_sql(question, dataset_id, context)]. *)
Definition _fallback_sql (w : World) (question dataset_id context : string)
  : M response :=
  let q := lower question in
  emit (EvRegistry dataset_id) ;;
  match table_registry w dataset_id with
  | [] => ret (RespError (Str "No tables for dataset") None None)
  | (schema, table) :: _ =>
      let full_table :=
        if negb (String.eqb schema "") then schema ++ "." ++ table else table in
      let sql :=
        if contains "delinquency" q || contains "30-89" q || contains "90" q then
          if contains "state" q then
            "SELECT * FROM cpfb_state_delinquency_30_89 WHERE date >= '2023-01-01' ORDER BY date DESC"
          else
            "SELECT * FROM cpfb_metro_delinquency_30_89 WHERE date >= '2023-01-01' ORDER BY date DESC LIMIT 100"
        else if contains "rate" q || contains "mortgage" q then
          "SELECT * FROM fred_mortgage_rates WHERE date >= '2023-01-01' ORDER BY date DESC LIMIT 100"
        else if contains "hpi" q || contains "house price" q || contains "index" q then
          "SELECT * FROM fhfa_hpi_state WHERE period >= '2023Q1' ORDER BY period DESC LIMIT 100"
        else "SELECT * FROM " ++ full_table ++ " LIMIT 100" in
      r <- execute_sql w (Str sql) ;;
      match r with
      | Return (columns, rs) =>
          ret (RespOk dataset_id (Str sql) columns rs
                 {| expl_tables := List_ [Str table];
                    expl_assumptions := None;
                    expl_notes := Str "Fallback template SQL (LLM not configured)" |})
      | Raise e => ret (RespError (Str e) None None)
      end
  end.

(** [if dataset_id:] holds for a string that is not empty. *)
Definition supplied (dataset_id : option string) : option string :=
  match dataset_id with
  | Some d => if String.eqb d "" then None else Some d
  | None => None
  end.

Definition to_choice (c : candidate float) : choice :=
  {| choice_dataset_id := dataset_id c; choice_label := label c;
     choice_why := why c |}.

(** The test [(scores[0] - scores[1]) < disambiguation_threshold], in
    binary floating point as Python evaluates it. *)
Definition gap_below (s0 s1 threshold : float) : bool :=
  PrimFloat.ltb (PrimFloat.sub s0 s1) threshold.

(** The block [Auto-select or disambiguate] of [query], for a list of
    candidates whose first member is [c0]: the response returned at once,
    or the candidate selected. *)
Definition select (c0 : candidate float) (candidates : list (candidate float))
                  (dataset_id : option string) (disambiguation_threshold : float)
  : response + candidate float :=
  let scores := map score candidates in
  match supplied dataset_id with
  | Some d =>
      inr (match find (fun c => String.eqb (Retrieval.dataset_id c) d) candidates with
           | Some c => c
           | None => c0
           end)
  | None =>
      match scores with
      | s0 :: s1 :: _ =>
          if gap_below s0 s1 disambiguation_threshold then
            inl (RespNeedsSelection (map to_choice (firstn 3 candidates))
                                    "Which data source should I use?")
          else inr c0
      | _ => inr c0
      end
  end.

(** The rest of [query] on the generative path, from the response text
    on.  An exception of the parser is not caught. *)
Definition answer_from_text (w : World) (resolved_dataset response_text : string)
  : M (result response) :=
  match _extract_sql_from_response response_text with
  | Raise e => ret (Raise e)
  | Return ex =>
      let sql := ex_sql ex in
      let meta := ex_meta ex in
      let meta_truthy := match meta with
                         | Some (_ :: _) => true
                         | _ => false
                         end in
      let meta_get (k : string) (default : value) :=
        match meta with
        | Some d => if meta_truthy then dict_get k default d else default
        | None => default
        end in
      if ex_needs_clar ex && truthy (ex_message ex) then
        ret (Return (RespNeedsClarification (ex_message ex)))
      else if negb (truthy sql) then
        ret (Return (RespError (meta_get "explanation" (Str "Could not generate SQL"))
                               None None))
      else
        r <- execute_sql w sql ;;
        match r with
        | Raise e =>
            ret (Return (RespError (Str ("SQL execution failed: " ++ e))
                                   (Some sql) (Some resolved_dataset)))
        | Return (columns, rs) =>
            ret (Return (RespOk resolved_dataset sql columns rs
                           {| expl_tables := meta_get "tables_used" (List_ []);
                              expl_assumptions := Some (meta_get "assumptions" (List_ []));
                              expl_notes := meta_get "explanation" (Str "") |}))
        end
  end.

(** The part of [query] that follows the selection, from
    [resolved_dataset = selected["dataset_id"]] on. *)
Definition proceed (w : World) (question : string) (selected : candidate float)
  : M (result response) :=
  let resolved_dataset := Retrieval.dataset_id selected in
  emit (EvContext resolved_dataset) ;;
  let context := build_context w resolved_dataset in
  match llm w with
  | None =>
      resp <- _fallback_sql w question resolved_dataset context ;;
      ret (Return resp)
  | Some invoke =>
      let prompt :=
        "Context:" ++ nl ++ context ++ nl ++ nl ++ "User question: "
        ++ question ++ nl ++ nl
        ++ "Generate a SQL query. Respond with JSON only." in
      emit (EvGenerate prompt) ;;
      answer_from_text w resolved_dataset (invoke prompt)
  end.

(** [query(question, dataset_id, disambiguation_threshold)]. *)
Definition query (w : World) (question : string) (dataset_id : option string)
                 (disambiguation_threshold : float) : M (result response) :=
  emit (EvRetrieve question) ;;
  let candidates := retriever_retrieve w question in
  match candidates with
  | [] =>
      ret (Return (RespError
                     (Str "No matching datasets found. Try rephrasing your question.")
                     None None))
  | c0 :: _ =>
      match select c0 candidates dataset_id disambiguation_threshold with
      | inl resp => ret (Return resp)
      | inr selected => proceed w question selected
      end
  end.

(** The default of [disambiguation_threshold]. *)
Definition default_threshold : float := 0.15%float.

(** The statements that a run sent to the SQL store. *)
Definition executed (log : list event) : list string :=
  flat_map (fun e => match e with EvExecute s => [s] | _ => [] end) log.

(** A statement is guarded when it is the result of limit injection and
    passes the validator against the built-in allow-list. *)
Definition guarded (w : World) (s : string) : Prop :=
  (exists s0, s = add_limit_if_missing s0 default_limit)
  /\ fst (validate_sql (set_order w) s None) = true.

(** An identifier is among the candidates. *)
Definition among (d : string) (candidates : list (candidate float)) : Prop :=
  exists c, In c candidates /\ Retrieval.dataset_id c = d.

(** The datasets for which a run built a context. *)
Definition contexts_built (log : list event) : list string :=
  flat_map (fun e => match e with EvContext d => [d] | _ => [] end) log.

End Agent.

(** ** The metadata that [scripts/init_db.py] loads *)

Module Deployment.
Import PyStr Py Retrieval Agent.

(** The rows of [nlq_dataset_registry]. *)
Definition dataset_registry : list dataset_row :=
  [ {| row_id := "cpfb_delinquency"; row_name := "CPFB Mortgage Delinquency";
       row_desc := "Consumer Financial Protection Bureau mortgage performance data. Percent of mortgages 30-89 days delinquent and 90+ days delinquent. Available by state, metro area, and county. Data from Jan 2008 to present." |};
    {| row_id := "fred_rates"; row_name := "FRED Mortgage Rates";
       row_desc := "Federal Reserve Economic Data - 30-year and 15-year fixed mortgage rates from Freddie Mac Primary Mortgage Market Survey. Weekly data from 1971." |};
    {| row_id := "fhfa_hpi"; row_name := "FHFA House Price Index";
       row_desc := "FHFA House Price Index - measures single-family home price changes from Fannie Mae and Freddie Mac repeat-sales. Available by state and metro." |} ].

(** The rows [(schema_name, table_name)] of [nlq_table_registry]. *)
Definition tables_of (dataset : string) : list (string * string) :=
  if String.eqb dataset "cpfb_delinquency" then
    [("main", "cpfb_state_delinquency_30_89"); ("main", "cpfb_state_delinquency_90_plus");
     ("main", "cpfb_metro_delinquency_30_89"); ("main", "cpfb_metro_delinquency_90_plus")]
  else if String.eqb dataset "fred_rates" then [("main", "fred_mortgage_rates")]
  else if String.eqb dataset "fhfa_hpi" then [("main", "fhfa_hpi_state")]
  else [].

(** An agent over that metadata, with the keyword retriever, a given
    generative backend and a given SQL store.  The context text is cut
    down to its first line. *)
Definition world (backend : option (string -> string))
                 (store : string -> result (list string * rows)) : World :=
  {| set_order := first_seen;
     retriever_retrieve := retrieve_floats dataset_registry default_top_k;
     build_context := fun d => "Dataset: " ++ d;
     llm := backend;
     table_registry := tables_of;
     store_execute := store |}.

(** An agent whose retriever knows two datasets with given scores. *)
Definition world_with_scores (s0 s1 : float) : World :=
  {| set_order := first_seen;
     retriever_retrieve := fun _ =>
       [ {| dataset_id := "cpfb_delinquency"; label := "CPFB Mortgage Delinquency";
            why := "Mortgage delinquency by state"; score := s0 |};
         {| dataset_id := "fred_rates"; label := "FRED Mortgage Rates";
            why := "Mortgage rates"; score := s1 |} ];
     build_context := fun d => "Dataset: " ++ d;
     llm := None;
     table_registry := tables_of;
     store_execute := fun _ => Return ([], []) |}.

(** A store in which the analytical tables are missing. *)
Definition store_without_tables (sql : string) : result (list string * rows) :=
  Raise "no such table".

(** A store whose tables are empty. *)
Definition store_empty (sql : string) : result (list string * rows) :=
  Return ([], []).

(** A registry whose only table lies outside the allow-list, behind a
    retriever that knows one dataset. *)
Definition world_with_unlisted_table : World :=
  {| set_order := first_seen;
     retriever_retrieve := fun _ =>
       [ {| dataset_id := "servicing"; label := "Loan servicing";
            why := "Loan servicing history"; score := 1%float |} ];
     build_context := fun d => "Dataset: " ++ d;
     llm := None;
     table_registry := fun _ => [("main", "loan_servicing")];
     store_execute := store_empty |}.

(** The answer of a backend that flags a clarification and asks nothing. *)
Definition flag_without_question : string :=
  "{" ++ Json.quoted "sql" ++ ": null, " ++ Json.quoted "needs_clarification" ++ ": true}".

End Deployment.

(** ** Names for parts of the orchestrator *)

Module AgentParts.
Import PyStr Py Guardrails Parser Retrieval Agent.

(** [full_table] of [_fallback_sql]. *)
Definition full_table_name (schema table : string) : string :=
  if negb (String.eqb schema "") then schema ++ "." ++ table else table.

(** The statement that [_fallback_sql] builds for a lower-cased question. *)
Definition fallback_statement (q full_table : string) : string :=
  if contains "delinquency" q || contains "30-89" q || contains "90" q then
    if contains "state" q then
      "SELECT * FROM cpfb_state_delinquency_30_89 WHERE date >= '2023-01-01' ORDER BY date DESC"
    else
      "SELECT * FROM cpfb_metro_delinquency_30_89 WHERE date >= '2023-01-01' ORDER BY date DESC LIMIT 100"
  else if contains "rate" q || contains "mortgage" q then
    "SELECT * FROM fred_mortgage_rates WHERE date >= '2023-01-01' ORDER BY date DESC LIMIT 100"
  else if contains "hpi" q || contains "house price" q || contains "index" q then
    "SELECT * FROM fhfa_hpi_state WHERE period >= '2023Q1' ORDER BY period DESC LIMIT 100"
  else "SELECT * FROM " ++ full_table ++ " LIMIT 100".

(** The explanation that the fallback attaches to its result. *)
Definition fallback_explanation (table : string) : explanation :=
  {| expl_tables := List_ [Str table];
     expl_assumptions := None;
     expl_notes := Str "Fallback template SQL (LLM not configured)" |}.

(** The user prompt of [query]. *)
Definition user_prompt (context question : string) : string :=
  "Context:" ++ nl ++ context ++ nl ++ nl ++ "User question: "
  ++ question ++ nl ++ nl
  ++ "Generate a SQL query. Respond with JSON only.".

(** The statement that [execute_sql] sends for a text. *)
Definition injected (s : string) : string := add_limit_if_missing s default_limit.

(** The value is a [str]. *)
Definition is_text (v : value) : bool :=
  match v with
  | Str _ => true
  | _ => false
  end.

(** A character that stands for itself inside a JSON string and is not a
    brace: no double quote, no backslash, no control character. *)
Definition plain_char (c : ascii) : bool :=
  negb (Ascii.eqb c Json.dq) && negb (Ascii.eqb c "\")
  && negb (is_brace c) && negb (Nat.ltb (nat_of_ascii c) 32).

(** The answer that carries a statement in the format that [SYSTEM_PROMPT]
    asks for, cut down to its key [sql]. *)
Definition sql_answer (s : string) : string :=
  "{" ++ Json.quoted "sql" ++ ": " ++ Json.quoted s ++ "}".

(** The message of the [AttributeError] that [sql.strip()] raises on a
    value that is not a string. *)
Definition no_strip_message (v : value) : string :=
  "'" ++ type_name v ++ "' object has no attribute 'strip'".

End AgentParts.

(** ** [app/main.py] and the construction of the agent *)

Module Main.
Import PyStr Py Retrieval Agent.

(** [NLQAgent._get_llm()]: no client without LangChain, and none without
    an API key; [client] is what [ChatOpenAI] answers with once it is
    built. *)
Definition _get_llm (langchain_available : bool) (openai_api_key : option string)
                    (client : string -> string) : option (string -> string) :=
  if negb langchain_available then None
  else match supplied openai_api_key with
       | Some _ => Some client
       | None => None
       end.

(** The body of a request to [/nlq/query]. *)
Record QueryRequest : Type := {
  question : string;
  user_id : option string;
  preferred_dataset : option string;
  time_zone : option string
}.

(** The body of a request to [/nlq/disambiguate]. *)
Record DisambiguateRequest : Type := {
  d_question : string;
  d_dataset_id : string;
  d_user_id : option string
}.

(** [nlq_query(req)]; [db_exists] is [db_path.exists()], [w] the agent
    that [get_agent()] returns.  An [HTTPException] is an exception with
    its status and detail. *)
Definition nlq_query (db_exists : bool) (w : World) (req : QueryRequest)
  : M (result response) :=
  if negb db_exists then
    ret (Raise "503: Database not initialized. Run scripts/init_db.py and scripts/ingest_data.py")
  else query w (question req) (preferred_dataset req) default_threshold.

(** [nlq_disambiguate(req)]. *)
Definition nlq_disambiguate (db_exists : bool) (w : World) (req : DisambiguateRequest)
  : M (result response) :=
  if negb db_exists then ret (Raise "503: Database not initialized")
  else query w (d_question req) (Some (d_dataset_id req)) default_threshold.

(** The calls to the generative backend in a log. *)
Definition generated (log : list event) : list string :=
  flat_map (fun e => match e with EvGenerate p => [p] | _ => [] end) log.

End Main.

(** ** The metadata store, [get_grounding_payload] and [_build_context] *)

Module Grounding.
Import PyStr Py Retrieval Agent.

(** [str(x)] of a nullable text column inside an f-string. *)
Definition py_str (x : option string) : string :=
  match x with
  | Some s => s
  | None => "None"
  end.

(** The truth value of a nullable text column: neither [None] nor the
    empty string. *)
Definition truthy_text (x : option string) : bool :=
  match x with
  | Some s => negb (String.eqb s "")
  | None => false
  end.

(** [sep.join(lines)]. *)
Fixpoint join (sep : string) (lines : list string) : string :=
  match lines with
  | [] => ""
  | [l] => l
  | l :: rest => l ++ sep ++ join sep rest
  end.

(** The columns of [nlq_dataset_registry] that the payload selects. *)
Record dataset_info : Type := {
  name : string;
  domain : string;
  description : string;
  grain : option string
}.

(** The columns of [nlq_table_registry] that the payload selects. *)
Record table_info : Type := {
  schema : string;
  table : string;
  desc : string;
  primary_keys : option string;
  join_hints : option string;
  important_cols : option string;
  example_filters : option string
}.

(** The columns of [nlq_domain_definitions] that the payload selects. *)
Record definition_info : Type := {
  term : string;
  definition : string;
  formula_sql : option string
}.

(** The three metadata tables, each row under its [dataset_id], in the
    order in which the store returns them. *)
Record Store : Type := {
  nlq_dataset_registry : list (string * dataset_info);
  nlq_table_registry : list (string * table_info);
  nlq_domain_definitions : list (string * definition_info)
}.

(** The dictionary that [get_grounding_payload] returns; the value under
    [dataset] is the empty dictionary when it is [None] here. *)
Record payload : Type := {
  dataset : option dataset_info;
  tables : list table_info;
  definitions : list definition_info
}.

(** The rows of a table [WHERE dataset_id = ?]. *)
Definition where_dataset {A : Type} (dataset_id : string) (rows : list (string * A))
  : list A :=
  map snd (filter (fun r => String.eqb (fst r) dataset_id) rows).

(** [get_grounding_payload(conn, dataset_id)]. *)
Definition get_grounding_payload (conn : Store) (dataset_id : string) : payload :=
  let datasets := where_dataset dataset_id (nlq_dataset_registry conn) in
  {| dataset := List.hd_error datasets;
     tables := where_dataset dataset_id (nlq_table_registry conn);
     definitions := where_dataset dataset_id (nlq_domain_definitions conn) |}.

(** The lines that [_build_context] appends for the dataset. *)
Definition dataset_lines (ds : option dataset_info) : list string :=
  match ds with
  | Some ds =>
      [ "Dataset: " ++ name ds ++ " (" ++ domain ds ++ ")";
        "Description: " ++ description ds;
        "Grain: " ++ (if truthy_text (grain ds) then py_str (grain ds) else "N/A") ]
  | None => []
  end.

(** The lines that it appends for one table. *)
Definition table_lines (t : table_info) : list string :=
  [ nl ++ "Table: " ++ schema t ++ "." ++ table t;
    "  Description: " ++ desc t;
    "  Columns: " ++ py_str (important_cols t) ]
  ++ (if truthy_text (example_filters t)
      then ["  Example filters: " ++ py_str (example_filters t)]
      else []).

(** The line that it appends for one definition. *)
Definition definition_line (d : definition_info) : string :=
  nl ++ "Definition - " ++ term d ++ ": " ++ definition d.

Definition context_lines (p : payload) : list string :=
  dataset_lines (dataset p)
  ++ flat_map table_lines (tables p)
  ++ map definition_line (definitions p).

(** [_build_context(dataset_id)], over the store that [db_path] names. *)
Definition _build_context (conn : Store) (dataset_id : string) : string :=
  join nl (context_lines (get_grounding_payload conn dataset_id)).

(** The rows that the keyword strategy reads: [SELECT dataset_id,
    dataset_name, description FROM nlq_dataset_registry]. *)
Definition registry_rows (conn : Store) : list dataset_row :=
  map (fun r => {| row_id := fst r; row_name := name (snd r);
                   row_desc := description (snd r) |})
      (nlq_dataset_registry conn).

(** The rows that [_fallback_sql] reads: [SELECT schema_name, table_name
    FROM nlq_table_registry WHERE dataset_id = ?]. *)
Definition registered_tables (conn : Store) (dataset_id : string)
  : list (string * string) :=
  map (fun t => (schema t, table t)) (where_dataset dataset_id (nlq_table_registry conn)).

(** An [NLQAgent] over a metadata store, with the keyword strategy of the
    retriever, a given generative backend and a given store of the
    analytical tables. *)
Definition agent (ord : SetIter) (conn : Store) (backend : option (string -> string))
                 (sql_store : string -> result (list string * rows)) : World :=
  {| set_order := ord;
     retriever_retrieve := retrieve_floats (registry_rows conn) 3;
     build_context := _build_context conn;
     llm := backend;
     table_registry := registered_tables conn;
     store_execute := sql_store |}.

End Grounding.

(** ** The metadata that [scripts/init_db.py] loads *)

Module LoadedMetadata.
Import Grounding.

Definition cpfb_table (t d keys cols filters : string) : string * table_info :=
  ("cpfb_delinquency",
   {| schema := "main"; table := t; desc := d; primary_keys := Some keys;
      join_hints := None; important_cols := Some cols;
      example_filters := Some filters |}).

(** The rows that [load_metadata] inserts, in the order of insertion. *)
Definition metadata : Store :=
  {| nlq_dataset_registry :=
       [ ("cpfb_delinquency",
          {| name := "CPFB Mortgage Delinquency"; domain := "delinquency";
             description := "Consumer Financial Protection Bureau mortgage performance data. Percent of mortgages 30-89 days delinquent and 90+ days delinquent. Available by state, metro area, and county. Data from Jan 2008 to present.";
             grain := Some "state_month" |});
         ("fred_rates",
          {| name := "FRED Mortgage Rates"; domain := "rates";
             description := "Federal Reserve Economic Data - 30-year and 15-year fixed mortgage rates from Freddie Mac Primary Mortgage Market Survey. Weekly data from 1971.";
             grain := Some "weekly" |});
         ("fhfa_hpi",
          {| name := "FHFA House Price Index"; domain := "housing";
             description := "FHFA House Price Index - measures single-family home price changes from Fannie Mae and Freddie Mac repeat-sales. Available by state and metro.";
             grain := Some "state_quarter" |}) ];
     nlq_table_registry :=
       [ cpfb_table "cpfb_state_delinquency_30_89"
           "State-level % of mortgages 30-89 days delinquent. Columns: date, state_fips, state_name, pct_30_89_days_late"
           "date, state_fips" "date, state_fips, state_name, pct_30_89_days_late"
           "date BETWEEN '2020-01-01' AND '2025-12-31'";
         cpfb_table "cpfb_state_delinquency_90_plus"
           "State-level % of mortgages 90+ days delinquent. Columns: date, state_fips, state_name, pct_90_plus_days_late"
           "date, state_fips" "date, state_fips, state_name, pct_90_plus_days_late"
           "date BETWEEN '2020-01-01' AND '2025-12-31'";
         cpfb_table "cpfb_metro_delinquency_30_89"
           "Metro area % mortgages 30-89 days delinquent. Columns: date, metro_area, pct_30_89_days_late"
           "date, metro_area" "date, metro_area, pct_30_89_days_late"
           "date >= '2020-01-01'";
         cpfb_table "cpfb_metro_delinquency_90_plus"
           "Metro area % mortgages 90+ days delinquent. Columns: date, metro_area, pct_90_plus_days_late"
           "date, metro_area" "date, metro_area, pct_90_plus_days_late"
           "date >= '2020-01-01'";
         ("fred_rates",
          {| schema := "main"; table := "fred_mortgage_rates";
             desc := "30-year and 15-year fixed mortgage rates. Columns: date, mort_30yr, mort_15yr, mort_5yr_arm";
             primary_keys := Some "date"; join_hints := None;
             important_cols := Some "date, mort_30yr, mort_15yr, mort_5yr_arm";
             example_filters := Some "date >= '2020-01-01'" |});
         ("fhfa_hpi",
          {| schema := "main"; table := "fhfa_hpi_state";
             desc := "FHFA House Price Index by state. Columns: period, state_fips, state_name, hpi_value, hpi_yoy_change";
             primary_keys := Some "period, state_fips"; join_hints := None;
             important_cols := Some "period, state_fips, state_name, hpi_value, hpi_yoy_change";
             example_filters := Some "period >= '2020Q1'" |}) ];
     nlq_domain_definitions :=
       [ ("cpfb_delinquency",
          {| term := "delinquency_rate_30_89";
             definition := "Percentage of mortgages 30-89 days past due. Use pct_30_89_days_late column.";
             formula_sql := None |});
         ("cpfb_delinquency",
          {| term := "delinquency_rate_90_plus";
             definition := "Percentage of mortgages 90+ days past due (serious delinquency). Use pct_90_plus_days_late.";
             formula_sql := None |});
         ("cpfb_delinquency",
          {| term := "delinquency";
             definition := "Mortgage delinquency - either 30-89 or 90+ days late depending on context.";
             formula_sql := None |});
         ("fred_rates",
          {| term := "mortgage_rate";
             definition := "30-year fixed mortgage rate from Freddie Mac PMMS. Column mort_30yr.";
             formula_sql := None |});
         ("fred_rates",
          {| term := "mort_30yr";
             definition := "30-year fixed rate. mort_15yr for 15-year.";
             formula_sql := None |});
         ("fhfa_hpi",
          {| term := "house_price_index";
             definition := "FHFA House Price Index - repeat sales index. hpi_value. hpi_yoy_change = year-over-year % change.";
             formula_sql := None |}) ] |}.

End LoadedMetadata.

(** ** The vector strategy of the retriever *)

Module VectorRetrieval.
Import PyStr Retrieval.

(** [meta.get("dataset_id", "")], for a metadata dictionary given by the
    value it holds under [dataset_id], if any. *)
Definition did_of (meta : option string) : string :=
  match meta with
  | Some d => d
  | None => ""
  end.

(** [dist or 0]: a distance that is [None] or zero counts as 0.  An
    integer is identified with the float of the same value. *)
Definition dist_or_zero (dist : option float) : float :=
  match dist with
  | Some x => if PrimFloat.eqb x 0 then 0%float else x
  | None => 0%float
  end.

(** [score = 1 - (dist or 0)]. *)
Definition hit_score (dist : option float) : float :=
  PrimFloat.sub 1 (dist_or_zero dist).

(** [dataset_scores[did] = dataset_scores.get(did, 0) + score] on a
    dictionary held as the list of its items in insertion order. *)
Fixpoint add_score (did : string) (s : float) (dataset_scores : list (string * float))
  : list (string * float) :=
  match dataset_scores with
  | [] => [(did, PrimFloat.add 0 s)]
  | (k, v) :: r =>
      if String.eqb k did then (k, PrimFloat.add v s) :: r
      else (k, v) :: add_score did s r
  end.

(** The loop over [zip(meta_list, dist_list)]. *)
Definition accumulate (hits : list (option string * option float))
  : list (string * float) :=
  fold_left (fun scores h => add_score (did_of (fst h)) (hit_score (snd h)) scores)
            hits [].

(** [sorted(items, key=lambda x: -x[1])]: stable, by the comparison of
    the negated scores.  [insert_desc x l] puts [x], which stood before
    every member of [l], in front of the first member whose key is not
    smaller. *)
Fixpoint insert_desc (x : string * float) (l : list (string * float))
  : list (string * float) :=
  match l with
  | [] => [x]
  | y :: r =>
      if PrimFloat.ltb (PrimFloat.opp (snd y)) (PrimFloat.opp (snd x))
      then y :: insert_desc x r
      else x :: y :: r
  end.

Definition sort_desc (l : list (string * float)) : list (string * float) :=
  fold_right insert_desc [] l.

(** The first row of [nlq_dataset_registry] with a given identifier: what
    [dataset_info] holds for it once the loop has met it. *)
Definition info_of (rows : list dataset_row) (did : string) : option dataset_row :=
  find (fun r => String.eqb (row_id r) did) rows.

(** [retrieve(question)] when the collection and the embedding model are
    available: [meta_list] and [dist_list] are what the collection
    answers for the question, [py_round4] is the built-in [round(x, 4)]. *)
Definition retrieve_vector (py_round4 : float -> float) (rows : list dataset_row)
                           (top_k : nat) (meta_list : list (option string))
                           (dist_list : list (option float))
  : list (candidate float) :=
  let dataset_scores := accumulate (combine meta_list dist_list) in
  let sorted_ds := firstn top_k (sort_desc dataset_scores) in
  map (fun item =>
         {| dataset_id := fst item;
            label := match info_of rows (fst item) with
                     | Some r => row_name r
                     | None => fst item
                     end;
            why := match info_of rows (fst item) with
                   | Some r => row_desc r
                   | None => ""
                   end;
            score := py_round4 (snd item) |})
      sorted_ds.

(** [dataset_scores.get(did)] on the list of items. *)
Fixpoint get (did : string) (dataset_scores : list (string * float)) : option float :=
  match dataset_scores with
  | [] => None
  | (k, v) :: r => if String.eqb k did then Some v else get did r
  end.

(** The hits of one dataset, in the order of the answer. *)
Definition hits_of (did : string) (hits : list (option string * option float))
  : list (option string * option float) :=
  filter (fun h => String.eqb (did_of (fst h)) did) hits.

(** The sum that the loop forms for one dataset: from 0, one addition
    per hit, in the order of the answer. *)
Definition summed (init : float) (hits : list (option string * option float)) : float :=
  fold_left (fun acc h => PrimFloat.add acc (hit_score (snd h))) hits init.

End VectorRetrieval.

(** * Properties *)

(** ** Facts about the string primitives *)

Module PyStrFacts.
Import PyStr.

Lemma startswith_spec (p s : string) :
  startswith p s = true <-> exists b, s = p ++ b.
Proof.
  revert s; induction p as [|a p IH]; intros s; simpl.
  - split; [intros _; now exists s | reflexivity].
  - destruct s as [|b s]; simpl.
    + split; [discriminate | intros [x Hx]; discriminate].
    + rewrite andb_true_iff, IH. split.
      * intros [Hab [x ->]]. apply Ascii.eqb_eq in Hab. subst. now exists x.
      * intros [x Hx]. injection Hx as -> ->. split; [apply Ascii.eqb_refl | now exists x].
Qed.

Lemma append_assoc (a b c : string) : (a ++ b) ++ c = a ++ (b ++ c).
Proof.
  induction a as [|x a IH]; simpl; [reflexivity | now rewrite IH].
Qed.

Lemma append_nil_r (a : string) : a ++ "" = a.
Proof.
  induction a as [|x a IH]; simpl; [reflexivity | now rewrite IH].
Qed.

Lemma contains_spec (p s : string) :
  contains p s = true <-> exists a b, s = a ++ p ++ b.
Proof.
  induction s as [|c s IH].
  - simpl. rewrite orb_false_r, startswith_spec. split.
    + intros [b Hb]. now exists "", b.
    + intros [a [b H]]. destruct a; [now exists b | discriminate].
  - cbn [contains]. rewrite orb_true_iff, startswith_spec, IH. split.
    + intros [[b Hb] | [a [b Hb]]].
      * now exists "", b.
      * exists (String c a), b. simpl. now rewrite Hb.
    + intros [a [b H]]. destruct a as [|x a]; simpl in H.
      * left. now exists b.
      * right. injection H as _ H. now exists a, b.
Qed.

Lemma smap_app (f : ascii -> ascii) (a b : string) :
  smap f (a ++ b) = smap f a ++ smap f b.
Proof.
  induction a as [|x a IH]; simpl; [reflexivity | now rewrite IH].
Qed.

(** A split of the image of [s] comes from a split of [s]. *)
Lemma smap_eq_app (f : ascii -> ascii) (s x y : string) :
  smap f s = x ++ y ->
  exists a b, s = a ++ b /\ smap f a = x /\ smap f b = y.
Proof.
  revert s; induction x as [|c x IH]; intros s H; simpl in H.
  - now exists "", s.
  - destruct s as [|d s]; simpl in H; [discriminate |].
    injection H as Hc H. destruct (IH _ H) as [a [b [-> [Ha Hb]]]].
    exists (String d a), b. simpl. now rewrite Hc, Ha, Hb.
Qed.

Lemma lower_upper_char (c : ascii) : lower_char (upper_char c) = lower_char c.
Proof.
  destruct c as [[] [] [] [] [] [] [] []]; reflexivity.
Qed.

Lemma upper_lower_char (c : ascii) : upper_char (lower_char c) = upper_char c.
Proof.
  destruct c as [[] [] [] [] [] [] [] []]; reflexivity.
Qed.

Lemma upper_upper_char (c : ascii) : upper_char (upper_char c) = upper_char c.
Proof.
  destruct c as [[] [] [] [] [] [] [] []]; reflexivity.
Qed.

Lemma lower_upper (s : string) : lower (upper s) = lower s.
Proof.
  unfold lower, upper. induction s as [|c s IH]; cbn [smap]; [reflexivity |].
  now rewrite lower_upper_char, IH.
Qed.

Lemma upper_lower (s : string) : upper (lower s) = upper s.
Proof.
  unfold lower, upper. induction s as [|c s IH]; cbn [smap]; [reflexivity |].
  now rewrite upper_lower_char, IH.
Qed.

Lemma upper_upper (s : string) : upper (upper s) = upper s.
Proof.
  unfold lower, upper. induction s as [|c s IH]; cbn [smap]; [reflexivity |].
  now rewrite upper_upper_char, IH.
Qed.

(** Two texts have the same upper-case form exactly when they have the
    same lower-case form. *)
Lemma upper_eq_lower_eq (a b : string) : upper a = upper b <-> lower a = lower b.
Proof.
  split; intros H.
  - rewrite <- (lower_upper a), <- (lower_upper b). now rewrite H.
  - rewrite <- (upper_lower a), <- (upper_lower b). now rewrite H.
Qed.

Lemma lstrip_split (s : string) : exists a, s = a ++ lstrip s.
Proof.
  induction s as [|c s [a IH]]; simpl.
  - now exists "".
  - destruct (is_space c).
    + exists (String c a). simpl. now rewrite <- IH.
    + now exists "".
Qed.

Lemma rstrip_split (s : string) : exists b, s = rstrip s ++ b.
Proof.
  induction s as [|c s [b IH]]; simpl.
  - now exists "".
  - destruct (rstrip s) as [|d r] eqn:E.
    + destruct (is_space c).
      * exists (String c s). reflexivity.
      * exists s. reflexivity.
    + exists b. simpl. f_equal. exact IH.
Qed.

Lemma strip_split (s : string) : exists a b, s = a ++ strip s ++ b.
Proof.
  destruct (lstrip_split s) as [a Ha].
  destruct (rstrip_split (lstrip s)) as [b Hb].
  exists a, b. unfold strip. now rewrite <- Hb.
Qed.











End PyStrFacts.

(** ** The pattern scan for table names *)

Section PatternScan.
Import PyStr PyStrFacts Guardrails.







End PatternScan.

(** ** The guardrail validator *)

Section ValidateSql.
Import PyStr PyStrFacts Guardrails.

Lemma contains_smap (f : ascii -> ascii) (p s : string) :
  contains (smap f p) (smap f s) = true ->
  exists a m b, s = a ++ m ++ b /\ smap f m = smap f p.
Proof.
  intros H. apply contains_spec in H. destruct H as [x [y H]].
  apply smap_eq_app in H. destruct H as [a [r [-> [_ Hr]]]].
  apply smap_eq_app in Hr. destruct Hr as [m [b [-> [Hm _]]]].
  now exists a, m, b.
Qed.

Lemma occurs_nocase_within (kw sql a b : string) :
  occurs_nocase kw sql -> occurs_nocase kw (a ++ sql ++ b).
Proof.
  intros [x [m [y [-> Hm]]]].
  exists (a ++ x), m, (y ++ b). split; [| exact Hm].
  now rewrite !append_assoc.
Qed.

(** The two tests of the keyword loop amount to one: [kw] occurs in the
    whole statement, whatever the case of its letters. *)
Lemma keyword_hit_spec (sql kw : string) :
  keyword_hit sql kw = true <-> occurs_nocase kw sql.
Proof.
  unfold keyword_hit. rewrite orb_true_iff. split.
  - intros [H | H].
    + apply contains_smap in H. destruct H as [a [m [b [E Hm]]]].
      destruct (strip_split sql) as [x [y Hs]].
      rewrite Hs. apply occurs_nocase_within.
      exists a, m, b. split; [exact E |].
      now apply upper_eq_lower_eq.
    + apply contains_smap in H. destruct H as [a [m [b [E Hm]]]].
      now exists a, m, b.
  - intros [a [m [b [-> Hm]]]]. right.
    apply contains_spec. exists (lower a), (lower b).
    unfold lower in *. now rewrite !smap_app, Hm.
Qed.

Lemma table_disallowed_spec (tables : list string) (t : string) :
  table_disallowed tables t = false <-> member_nocase t tables.
Proof.
  unfold table_disallowed, member_nocase.
  rewrite negb_false_iff, existsb_exists. split.
  - intros [x [Hx E]]. apply in_map_iff in Hx. destruct Hx as [a [<- Ha]].
    apply String.eqb_eq in E. now exists a.
  - intros [a [Ha E]]. exists (lower a). split.
    + now apply in_map.
    + apply String.eqb_eq. now symmetry.
Qed.

Lemma empty_test (sql : string) :
  String.eqb sql "" || String.eqb (strip sql) "" = true <-> strip sql = "".
Proof.
  rewrite orb_true_iff, !String.eqb_eq. split.
  - intros [-> | H]; [reflexivity | exact H].
  - now right.
Qed.

(** What [validate_sql] answers, case by case. *)
Lemma validate_sql_cases (ord : SetIter) (sql : string)
                         (allowed_tables : option (list string)) :
  (strip sql = "" /\ validate_sql ord sql allowed_tables = (false, "Empty SQL"))
  \/
  (strip sql <> "" /\
   exists kw, In kw BLOCKED_KEYWORDS /\ occurs_nocase kw sql /\
     validate_sql ord sql allowed_tables = (false, "Blocked keyword: " ++ kw))
  \/
  (strip sql <> "" /\
   (forall kw, In kw BLOCKED_KEYWORDS -> ~ occurs_nocase kw sql) /\
   exists t, In t (referenced_tables sql) /\
     ~ member_nocase t (tables_in_force allowed_tables) /\
     validate_sql ord sql allowed_tables = (false, "Table not allowed: " ++ t))
  \/
  (strip sql <> "" /\
   (forall kw, In kw BLOCKED_KEYWORDS -> ~ occurs_nocase kw sql) /\
   (forall t, In t (referenced_tables sql) ->
      member_nocase t (tables_in_force allowed_tables)) /\
   validate_sql ord sql allowed_tables = (true, "")).
Proof.
  unfold validate_sql.
  destruct (String.eqb sql "" || String.eqb (strip sql) "") eqn:He.
  { left. apply empty_test in He. now split. }
  assert (Hne : strip sql <> "").
  { intros H. apply empty_test in H. congruence. }
  right.
  destruct (find (keyword_hit sql) (iter_set ord BLOCKED_KEYWORDS)) as [kw|] eqn:Hk.
  { left. apply find_some in Hk. destruct Hk as [Hin Hhit].
    split; [exact Hne |]. exists kw. repeat split.
    - now apply (iter_set_In ord).
    - now apply keyword_hit_spec. }
  assert (Hnk : forall kw, In kw BLOCKED_KEYWORDS -> ~ occurs_nocase kw sql).
  { intros kw Hin Hocc. apply keyword_hit_spec in Hocc.
    apply (iter_set_In ord) in Hin.
    now rewrite (find_none _ _ Hk kw Hin) in Hocc. }
  right. fold (referenced_tables sql).
  destruct (find (table_disallowed (tables_in_force allowed_tables))
                 (iter_set ord (referenced_tables sql))) as [t|] eqn:Ht.
  - left. apply find_some in Ht. destruct Ht as [Hin Hd].
    repeat split; [exact Hne | exact Hnk |]. exists t. repeat split.
    + now apply (iter_set_In ord).
    + intros Hm. apply table_disallowed_spec in Hm. congruence.
  - right. repeat split; [exact Hne | exact Hnk |].
    intros t Hin. apply table_disallowed_spec.
    apply (iter_set_In ord) in Hin.
    pose proof (find_none _ _ Ht t Hin) as H.
    now destruct (table_disallowed (tables_in_force allowed_tables) t).
Qed.

End ValidateSql.

Section ValidateSqlClaims.
Import PyStr PyStrFacts Guardrails.



(** The two validator scenarios of the specification. *)
Example validate_sql_drop_scenario (ord : SetIter) :
  validate_sql ord "SELECT * FROM cpfb_state_delinquency_30_89; DROP TABLE users;" None
  = (false, "Blocked keyword: drop").
Proof.
  set (sql := "SELECT * FROM cpfb_state_delinquency_30_89; DROP TABLE users;").
  assert (Honly : forall kw, In kw BLOCKED_KEYWORDS ->
                             keyword_hit sql kw = true -> kw = "drop").
  { intros kw Hin. simpl in Hin.
    repeat (destruct Hin as [<- | Hin]; [vm_compute; congruence |]).
    contradiction. }
  unfold validate_sql.
  replace (String.eqb sql "" || String.eqb (strip sql) "") with false by reflexivity.
  destruct (find (keyword_hit sql) (iter_set ord BLOCKED_KEYWORDS)) as [kw|] eqn:Hk.
  - apply find_some in Hk. destruct Hk as [Hin Hhit].
    apply -> (iter_set_In ord) in Hin. now rewrite (Honly kw Hin Hhit).
  - assert (Hin : In "drop" (iter_set ord BLOCKED_KEYWORDS)).
    { apply (iter_set_In ord). simpl. tauto. }
    pose proof (find_none _ _ Hk _ Hin) as H. vm_compute in H. discriminate.
Qed.

Example validate_sql_unknown_table_scenario :
  validate_sql first_seen "SELECT * FROM unknown_table" None
  = (false, "Table not allowed: unknown_table")
  /\ validate_sql last_seen "SELECT * FROM unknown_table" None
  = (false, "Table not allowed: unknown_table").
Proof.
  split; reflexivity.
Qed.

End ValidateSqlClaims.

(** ** Limit injection *)

Section AddLimit.
Import PyStr PyStrFacts Guardrails.














End AddLimit.

Section AddLimitClaims.
Import PyStr PyStrFacts Guardrails.






End AddLimitClaims.

(** ** The budget of the JSON decoder *)

Section JsonFuel.
Import PyStr Py Json.

Lemma skip_ws_length (s : string) :
  String.length (skip_ws s) <= String.length s.
Proof.
  induction s as [|c s IH]; cbn [skip_ws]; [lia |].
  destruct (is_json_ws c); cbn [String.length] in *; lia.
Qed.

Lemma strip_prefix_length (p s r : string) :
  strip_prefix p s = Some r -> String.length r + String.length p = String.length s.
Proof.
  revert s. induction p as [|a p IH]; intros s; cbn [strip_prefix].
  - intros H. injection H as <-. cbn. lia.
  - destruct s as [|b s]; [discriminate |].
    destruct (Ascii.eqb a b); [| discriminate].
    intros H. apply IH in H. cbn [String.length]. lia.
Qed.

Lemma span_length (p : ascii -> bool) (s a b : string) :
  span p s = (a, b) -> String.length b <= String.length s.
Proof.
  revert a b. induction s as [|c s IH]; intros a b; cbn [span].
  - intros H. injection H as <- <-. cbn. lia.
  - destruct (p c).
    + destruct (span p s) as [a' b'] eqn:E. intros H. injection H as <- <-.
      specialize (IH _ _ eq_refl). cbn [String.length]. lia.
    + intros H. injection H as <- <-. lia.
Qed.

(** A string literal takes at least its closing quote. *)
Lemma scan_string_length (n : nat) :
  forall pending s d r,
    String.length s <= n -> scan_string pending s = Some (d, r) ->
    String.length r < String.length s.
Proof.
  induction n as [|n IH]; intros pending s d r Hn.
  { destruct s; [discriminate | cbn in Hn; lia]. }
  assert (Hrec : forall pending' s' (f : string * string -> string),
             String.length s' <= n -> String.length s' < String.length s ->
             option_map (fun p => (f p, snd p)) (scan_string pending' s') = Some (d, r) ->
             String.length r < String.length s).
  { intros pending' s' f Hn' Hlt H.
    destruct (scan_string pending' s') as [[d' r']|] eqn:E; [| discriminate].
    cbn in H. injection H as _ <-. apply IH in E; [lia | exact Hn']. }
  destruct s as [|c r0]; [discriminate |]. cbn [scan_string String.length] in *.
  destruct (Ascii.eqb c dq).
  { intros H. injection H as _ <-. lia. }
  destruct (Ascii.eqb c "\").
  - destruct r0 as [|e r1]; [discriminate |]. cbn [String.length] in *.
    destruct (Ascii.eqb e "u").
    + destruct r1 as [|h1 [|h2 [|h3 [|h4 r']]]]; try discriminate.
      cbn [String.length] in *.
      destruct (hex4 h1 h2 h3 h4) as [v|]; [| discriminate].
      destruct pending as [hi|].
      * destruct (is_low_surrogate v); [| destruct (is_high_surrogate v)];
          apply Hrec; lia.
      * destruct (is_high_surrogate v).
        -- intros E. apply IH in E; lia.
        -- apply Hrec; lia.
    + destruct (simple_escape e); [| discriminate]. apply Hrec; lia.
  - destruct (Nat.ltb _ 32); [discriminate |]. apply Hrec; lia.
Qed.

Lemma scan_sign_length (s sign r : string) :
  scan_sign s = (sign, r) -> String.length r <= String.length s.
Proof.
  unfold scan_sign. destruct (strip_prefix "-" s) as [x|] eqn:E.
  - apply strip_prefix_length in E. intros H. injection H as _ <-. lia.
  - intros H. injection H as _ <-. lia.
Qed.

Lemma scan_int_part_length (s ds r : string) :
  scan_int_part s = Some (ds, r) -> String.length r < String.length s.
Proof.
  unfold scan_int_part. destruct s as [|c x]; [discriminate |].
  destruct (is_digit c) eqn:Ec; [| discriminate].
  destruct (Ascii.eqb c "0").
  - intros H. injection H as _ <-. cbn. lia.
  - cbn [span]. rewrite Ec. destruct (span is_digit x) as [a b] eqn:Es.
    apply span_length in Es. intros H. injection H as _ <-. cbn. lia.
Qed.

Lemma scan_fraction_length (s frac r : string) :
  scan_fraction s = (frac, r) -> String.length r <= String.length s.
Proof.
  unfold scan_fraction. destruct (strip_prefix "." s) as [x|] eqn:E.
  - apply strip_prefix_length in E. destruct (span is_digit x) as [ds r'] eqn:Es.
    apply span_length in Es.
    destruct (String.eqb ds ""); intros H; injection H as _ <-; lia.
  - intros H. injection H as _ <-. lia.
Qed.

Lemma scan_exp_sign_length (s sg r : string) :
  scan_exp_sign s = (sg, r) -> String.length r <= String.length s.
Proof.
  unfold scan_exp_sign.
  destruct (strip_prefix "-" s) as [x|] eqn:Em.
  - apply strip_prefix_length in Em. intros H. injection H as _ <-. lia.
  - destruct (strip_prefix "+" s) as [x|] eqn:Ep.
    + apply strip_prefix_length in Ep. intros H. injection H as _ <-. lia.
    + intros H. injection H as _ <-. lia.
Qed.

Lemma scan_exponent_length (s exp r : string) :
  scan_exponent s = (exp, r) -> String.length r <= String.length s.
Proof.
  unfold scan_exponent. destruct s as [|e x].
  - intros H. injection H as _ <-. lia.
  - destruct (Ascii.eqb e "e" || Ascii.eqb e "E").
    + destruct (scan_exp_sign x) as [sg r'] eqn:Esg.
      apply scan_exp_sign_length in Esg.
      destruct (span is_digit r') as [ds r''] eqn:Es. apply span_length in Es.
      destruct (String.eqb ds ""); intros H; injection H as _ <-;
        cbn [String.length]; lia.
    + intros H. injection H as _ <-. lia.
Qed.

Lemma scan_number_length (s lex : string) (b : bool) (r : string) :
  scan_number s = Some (lex, b, r) -> String.length r < String.length s.
Proof.
  unfold scan_number.
  destruct (scan_sign s) as [sign r0] eqn:E0. apply scan_sign_length in E0.
  destruct (scan_int_part r0) as [[ds r2]|] eqn:E1; [| discriminate].
  apply scan_int_part_length in E1.
  destruct (scan_fraction r2) as [frac r3] eqn:E2. apply scan_fraction_length in E2.
  destruct (scan_exponent r3) as [exp r4] eqn:E3. apply scan_exponent_length in E3.
  intros H. injection H as _ _ <-. lia.
Qed.

Lemma scan_literal_length (s : string) (v : value) (r : string) :
  scan_literal s = Some (v, r) -> String.length r < String.length s.
Proof.
  unfold scan_literal.
  repeat match goal with
         | |- context [strip_prefix ?p s] =>
             let E := fresh "E" in
             destruct (strip_prefix p s) eqn:E;
             [ apply strip_prefix_length in E; cbn [String.length] in E;
               intros H; injection H as _ <-; lia |]
         | |- context [scan_number s] =>
             let E := fresh "E" in
             destruct (scan_number s) as [[[lex fl] r']|] eqn:E;
             [ apply scan_number_length in E; intros H; injection H as _ <-; lia |]
         end.
  discriminate.
Qed.

(** What follows a scanned value is shorter than the text scanned, and
    what follows the members of an object or the elements of an array is
    shorter too. *)
Lemma scan_length (fuel : nat) :
  (forall s v r, scan_value fuel s = Some (v, r) ->
                 String.length r < String.length s)
  /\ (forall acc s d r, scan_members fuel acc s = Some (d, r) ->
                        String.length r < String.length s)
  /\ (forall s l r, scan_elements fuel s = Some (l, r) ->
                    String.length r < String.length s).
Proof.
  induction fuel as [|fuel [IHv [IHm IHe]]];
    [repeat split; intros; discriminate |].
  repeat split.
  - intros s v r. cbn [scan_value]. destruct s as [|c x]; [discriminate |].
    destruct (Ascii.eqb c dq).
    { destruct (scan_string None x) as [[d r']|] eqn:E; [| discriminate].
      apply (scan_string_length _ _ _ _ _ (le_n _)) in E.
      cbn. intros H. injection H as _ <-. lia. }
    pose proof (skip_ws_length x) as Hw.
    destruct (Ascii.eqb c "{").
    { destruct (strip_prefix "}" (skip_ws x)) as [r'|] eqn:E.
      - apply strip_prefix_length in E. intros H. injection H as _ <-.
        cbn [String.length] in *. lia.
      - destruct (scan_members fuel [] (skip_ws x)) as [[d r']|] eqn:Em;
          [| discriminate].
        apply IHm in Em. cbn. intros H. injection H as _ <-. lia. }
    destruct (Ascii.eqb c "[").
    { destruct (strip_prefix "]" (skip_ws x)) as [r'|] eqn:E.
      - apply strip_prefix_length in E. intros H. injection H as _ <-.
        cbn [String.length] in *. lia.
      - destruct (scan_elements fuel (skip_ws x)) as [[l r']|] eqn:Ee;
          [| discriminate].
        apply IHe in Ee. cbn. intros H. injection H as _ <-. lia. }
    apply scan_literal_length.
  - intros acc s d r. cbn [scan_members].
    destruct (strip_prefix (String dq "") s) as [x|] eqn:E0; [| discriminate].
    apply strip_prefix_length in E0. cbn [String.length] in E0.
    destruct (scan_string None x) as [[key r1]|] eqn:E1; [| discriminate].
    apply (scan_string_length _ _ _ _ _ (le_n _)) in E1.
    pose proof (skip_ws_length r1) as Hw1.
    destruct (strip_prefix ":" (skip_ws r1)) as [r2|] eqn:E2; [| discriminate].
    apply strip_prefix_length in E2.
    pose proof (skip_ws_length r2) as Hw2.
    destruct (scan_value fuel (skip_ws r2)) as [[v r3]|] eqn:E3; [| discriminate].
    apply IHv in E3. pose proof (skip_ws_length r3) as Hw3.
    destruct (strip_prefix "}" (skip_ws r3)) as [r4|] eqn:E4.
    { apply strip_prefix_length in E4. intros H. injection H as _ <-. lia. }
    destruct (strip_prefix "," (skip_ws r3)) as [r4|] eqn:E5; [| discriminate].
    apply strip_prefix_length in E5. pose proof (skip_ws_length r4) as Hw4.
    intros H. apply IHm in H. lia.
  - intros s l r. cbn [scan_elements].
    destruct (scan_value fuel s) as [[v r1]|] eqn:E1; [| discriminate].
    apply IHv in E1. pose proof (skip_ws_length r1) as Hw1.
    destruct (strip_prefix "]" (skip_ws r1)) as [r2|] eqn:E2.
    { apply strip_prefix_length in E2. intros H. injection H as _ <-. lia. }
    destruct (strip_prefix "," (skip_ws r1)) as [r2|] eqn:E3; [| discriminate].
    apply strip_prefix_length in E3. pose proof (skip_ws_length r2) as Hw2.
    destruct (scan_elements fuel (skip_ws r2)) as [[l' r']|] eqn:E4; [| discriminate].
    apply IHe in E4. cbn. intros H. injection H as _ <-. lia.
Qed.

(** A budget above twice the length of the text is never used up: any
    larger budget gives the same result. *)
Lemma scan_fuel_enough (fuel : nat) :
  (forall s fuel', 2 * String.length s < fuel -> fuel <= fuel' ->
                   scan_value fuel' s = scan_value fuel s)
  /\ (forall acc s fuel', 2 * String.length s < fuel -> fuel <= fuel' ->
                          scan_members fuel' acc s = scan_members fuel acc s)
  /\ (forall s fuel', 2 * String.length s + 1 < fuel -> fuel <= fuel' ->
                      scan_elements fuel' s = scan_elements fuel s).
Proof.
  induction fuel as [|fuel [IHv [IHm IHe]]]; [repeat split; intros; lia |].
  repeat split.
  - intros s [|fuel'] Hs Hf; [lia |]. cbn [scan_value].
    destruct s as [|c x]; [reflexivity |]. cbn [String.length] in Hs.
    pose proof (skip_ws_length x) as Hw.
    destruct (Ascii.eqb c dq); [reflexivity |].
    destruct (Ascii.eqb c "{").
    { destruct (strip_prefix "}" (skip_ws x)); [reflexivity |].
      now rewrite (IHm [] (skip_ws x) fuel') by lia. }
    destruct (Ascii.eqb c "["); [| reflexivity].
    destruct (strip_prefix "]" (skip_ws x)); [reflexivity |].
    now rewrite (IHe (skip_ws x) fuel') by lia.
  - intros acc s [|fuel'] Hs Hf; [lia |]. cbn [scan_members].
    destruct (strip_prefix (String dq "") s) as [x|] eqn:E0; [| reflexivity].
    apply strip_prefix_length in E0. cbn [String.length] in E0.
    destruct (scan_string None x) as [[key r1]|] eqn:E1; [| reflexivity].
    apply (scan_string_length _ _ _ _ _ (le_n _)) in E1.
    pose proof (skip_ws_length r1) as Hw1.
    destruct (strip_prefix ":" (skip_ws r1)) as [r2|] eqn:E2; [| reflexivity].
    apply strip_prefix_length in E2. pose proof (skip_ws_length r2) as Hw2.
    rewrite (IHv (skip_ws r2) fuel') by lia.
    destruct (scan_value fuel (skip_ws r2)) as [[v r3]|] eqn:E3; [| reflexivity].
    apply (proj1 (scan_length fuel)) in E3. pose proof (skip_ws_length r3) as Hw3.
    destruct (strip_prefix "}" (skip_ws r3)); [reflexivity |].
    destruct (strip_prefix "," (skip_ws r3)) as [r4|] eqn:E5; [| reflexivity].
    apply strip_prefix_length in E5. pose proof (skip_ws_length r4) as Hw4.
    apply IHm; lia.
  - intros s [|fuel'] Hs Hf; [lia |]. cbn [scan_elements].
    rewrite (IHv s fuel') by lia.
    destruct (scan_value fuel s) as [[v r1]|] eqn:E1; [| reflexivity].
    apply (proj1 (scan_length fuel)) in E1. pose proof (skip_ws_length r1) as Hw1.
    destruct (strip_prefix "]" (skip_ws r1)); [reflexivity |].
    destruct (strip_prefix "," (skip_ws r1)) as [r2|] eqn:E3; [| reflexivity].
    apply strip_prefix_length in E3. pose proof (skip_ws_length r2) as Hw2.
    now rewrite (IHe (skip_ws r2) fuel') by lia.
Qed.

(** The budget that [loads] grants is enough: a larger one decodes the
    same value or fails the same way. *)
Lemma loads_budget (s : string) (fuel : nat) :
  2 * String.length s < fuel ->
  scan_value fuel (skip_ws s) = scan_value (S (2 * String.length s)) (skip_ws s).
Proof.
  intros H. pose proof (skip_ws_length s) as Hw.
  apply (proj1 (scan_fuel_enough (S (2 * String.length s)))); lia.
Qed.

End JsonFuel.

(** ** The response parser *)

Section ParserFacts.
Import PyStr PyStrFacts Py Json Parser.

(** A text that opens with a brace decodes to a dictionary or not at all. *)
Lemma scan_value_brace (fuel : nat) (s r : string) (v : value) :
  scan_value fuel (String "{" s) = Some (v, r) -> exists d, v = Dict d.
Proof.
  destruct fuel as [|fuel]; [discriminate |].
  cbn [scan_value].
  change (Ascii.eqb "{" dq) with false. change (Ascii.eqb "{" "{") with true.
  cbv iota.
  destruct (strip_prefix "}" (skip_ws s)) as [r'|].
  - intros H. injection H as <- _. now exists [].
  - destruct (scan_members fuel [] (skip_ws s)) as [[d r']|];
      cbn [option_map fst snd]; [| discriminate].
    intros H. injection H as <- _. now exists d.
Qed.

Lemma loads_brace (s : string) (v : value) :
  loads (String "{" s) = Some v -> exists d, v = Dict d.
Proof.
  unfold loads.
  change (skip_ws (String "{" s)) with (String "{"%char s).
  destruct (scan_value _ _) as [[v' r]|] eqn:E; [| discriminate].
  destruct (skip_ws r); [| discriminate].
  intros H. injection H as <-. exact (scan_value_brace _ _ _ _ E).
Qed.

Lemma json_block_at_brace (s m : string) :
  json_block_at s = Some m -> exists r, m = String "{" r.
Proof.
  unfold json_block_at.
  destruct (strip_prefix "{" s) as [r|]; [| discriminate].
  destruct (span _ r) as [body rest].
  destruct (strip_prefix "}" rest); [| discriminate].
  destruct (contains _ body); [| discriminate].
  intros H. injection H as <-. now exists (body ++ "}").
Qed.

Lemma search_json_block_brace (s m : string) :
  search_json_block s = Some m -> exists r, m = String "{" r.
Proof.
  induction s as [|c s IH]; cbn [search_json_block].
  - destruct (json_block_at "") eqn:E; [| discriminate].
    intros H. injection H as <-. now apply (json_block_at_brace "").
  - destruct (json_block_at (String c s)) eqn:E.
    + intros H. injection H as <-. now apply (json_block_at_brace (String c s)).
    + exact IH.
Qed.

(** The structured strategy never raises: what the pattern matched opens
    with a brace, so what was decoded has a [get] method. *)
Lemma from_object_of_block (text m : string) (obj : value) :
  search_json_block text = Some m -> loads m = Some obj ->
  exists d, obj = Dict d /\
    from_object obj =
      Return (if truthy (dict_get "needs_clarification" None_ d) then
                {| ex_sql := None_; ex_meta := None; ex_needs_clar := true;
                   ex_message := dict_get "clarifying_question" None_ d |}
              else
                {| ex_sql := dict_get "sql" None_ d;
                   ex_meta := Some (fold_right
                      (fun k acc => if dict_mem k d
                                    then (k, dict_get k None_ d) :: acc else acc)
                      [] ["assumptions"; "tables_used"; "explanation"]);
                   ex_needs_clar := false; ex_message := None_ |}).
Proof.
  intros Hs Hl. destruct (search_json_block_brace _ _ Hs) as [r ->].
  destruct (loads_brace _ _ Hl) as [d ->]. exists d. split; [reflexivity |].
  unfold from_object. now destruct (truthy _).
Qed.

End ParserFacts.

Section RawScan.
Import PyStr PyStrFacts Py Json Parser.










End RawScan.

Section ParserClaims.
Import PyStr PyStrFacts Py Json Parser.

Lemma extract_unfold (text : string) :
  _extract_sql_from_response text =
    match structured (strip text) with
    | Some obj => from_object obj
    | None => Return (extract_unstructured (strip text))
    end.
Proof.
  unfold _extract_sql_from_response, structured.
  destruct (search_json_block (strip text)); reflexivity.
Qed.

Lemma structured_dict (t : string) (obj : value) :
  structured t = Some obj -> exists d, obj = Dict d.
Proof.
  unfold structured. destruct (search_json_block t) as [m|] eqn:E; [| discriminate].
  intros H. destruct (from_object_of_block _ _ _ E H) as [d [-> _]]. now exists d.
Qed.

(** What the unstructured strategies return is an SQL text or the failure
    tuple. *)
Lemma extract_unstructured_cases (t : string) :
  let e := extract_unstructured t in
  (exists s, ex_sql e = Str s /\ ex_meta e = Some [] /\ ex_needs_clar e = false
             /\ ex_message e = None_)
  \/ e = {| ex_sql := None_; ex_meta := None; ex_needs_clar := false;
            ex_message := Str no_sql_reason |}.
Proof.
  cbv zeta. unfold extract_unstructured.
  destruct (search_fenced t) as [g|].
  { left. now exists (strip g). }
  destruct (contains "SELECT" (upper t)); [| now right].
  destruct (index_of "SELECT" (upper t)) as [start|]; [| now right].
  destruct (negb (String.eqb _ "")); [| now right].
  left. eexists. cbn. repeat split.
Qed.




End ParserClaims.

(** ** The orchestrator *)

Section AgentFacts.
Import PyStr PyStrFacts Py Guardrails Parser Retrieval Agent.

Lemma snd_bind {A B : Type} (m : M A) (k : A -> M B) :
  snd (bind m k) = (snd m ++ snd (k (fst m)))%list.
Proof.
  unfold bind. destruct m as [a l1]. cbn [fst snd].
  now destruct (k a) as [b l2].
Qed.

Lemma fst_bind {A B : Type} (m : M A) (k : A -> M B) :
  fst (bind m k) = fst (k (fst m)).
Proof.
  unfold bind. destruct m as [a l1]. cbn [fst snd].
  now destruct (k a) as [b l2].
Qed.

Lemma executed_app (l1 l2 : list event) :
  executed (l1 ++ l2) = (executed l1 ++ executed l2)%list.
Proof.
  apply flat_map_app.
Qed.

Lemma contexts_built_app (l1 l2 : list event) :
  contexts_built (l1 ++ l2) = (contexts_built l1 ++ contexts_built l2)%list.
Proof.
  apply flat_map_app.
Qed.

(** [execute_sql] sends at most one statement to the store: the argument
    after limit injection, and only if the validator passes it. *)
Lemma execute_sql_log (w : World) (sql : value) :
  (executed (snd (execute_sql w sql)) = []
   /\ (forall s, sql = Str s ->
         fst (validate_sql (set_order w)
                (add_limit_if_missing s default_limit) None) = false
         /\ fst (execute_sql w sql)
            = Raise (snd (validate_sql (set_order w)
                            (add_limit_if_missing s default_limit) None))))
  \/ (exists s, sql = Str s
        /\ fst (validate_sql (set_order w)
                  (add_limit_if_missing s default_limit) None) = true
        /\ execute_sql w sql
           = (store_execute w (add_limit_if_missing s default_limit),
              [EvExecute (add_limit_if_missing s default_limit)])).
Proof.
  destruct sql as [| b | n | lex | s | l | d];
    try (left; split; [reflexivity | intros s' H; discriminate]).
  unfold execute_sql.
  destruct (validate_sql (set_order w) (add_limit_if_missing s default_limit) None)
    as [ok err] eqn:E.
  destruct ok; cbn [negb].
  - right. exists s. split; [reflexivity | split; [| reflexivity]].
    now rewrite E.
  - left. split; [reflexivity |]. intros s' H. injection H as <-.
    rewrite E. now split.
Qed.

Lemma execute_sql_guarded (w : World) (sql : value) :
  Forall (guarded w) (executed (snd (execute_sql w sql))).
Proof.
  destruct (execute_sql_log w sql) as [[-> _] | [s [-> [Hv ->]]]].
  - constructor.
  - cbn. constructor; [| constructor]. split; [now exists s | exact Hv].
Qed.

Lemma fallback_guarded (w : World) (question dataset context : string) :
  Forall (guarded w) (executed (snd (_fallback_sql w question dataset context))).
Proof.
  unfold _fallback_sql. rewrite snd_bind, executed_app. cbn [emit snd fst executed flat_map app].
  destruct (table_registry w dataset) as [|[schema table] rest]; [constructor |].
  rewrite snd_bind, executed_app. apply Forall_app. split.
  - apply execute_sql_guarded.
  - destruct (fst (execute_sql w _)) as [[columns rs] | e]; constructor.
Qed.

Lemma answer_guarded (w : World) (resolved text : string) :
  Forall (guarded w) (executed (snd (answer_from_text w resolved text))).
Proof.
  unfold answer_from_text.
  destruct (_extract_sql_from_response text) as [ex | e]; [| constructor].
  destruct (ex_needs_clar ex && truthy (ex_message ex)); [constructor |].
  destruct (negb (truthy (ex_sql ex))); [constructor |].
  rewrite snd_bind, executed_app. apply Forall_app. split.
  - apply execute_sql_guarded.
  - destruct (fst (execute_sql w _)) as [[columns rs] | e]; constructor.
Qed.

Lemma proceed_guarded (w : World) (question : string) (selected : candidate float) :
  Forall (guarded w) (executed (snd (proceed w question selected))).
Proof.
  unfold proceed. rewrite snd_bind, executed_app.
  cbn [emit snd fst executed flat_map app].
  destruct (llm w) as [invoke|].
  - rewrite snd_bind, executed_app. cbn [emit snd fst executed flat_map app].
    apply answer_guarded.
  - rewrite snd_bind, executed_app, app_nil_r. apply fallback_guarded.
Qed.

(** C2.  Every statement that [query] sends to the SQL store, on the
    generative path and on the fallback path alike, is the result of limit
    injection and has passed the validator; and [execute_sql] sends
    nothing to the store for a statement that the validator refuses. *)
Theorem executed_statements_are_guarded
    (w : World) (question : string) (dataset_id : option string) (threshold : float) :
  Forall (guarded w) (executed (snd (query w question dataset_id threshold)))
  /\ (forall context dataset,
        Forall (guarded w)
          (executed (snd (_fallback_sql w question dataset context))))
  /\ (forall text dataset,
        Forall (guarded w) (executed (snd (answer_from_text w dataset text))))
  /\ (forall s,
        fst (validate_sql (set_order w)
               (add_limit_if_missing s default_limit) None) = false ->
        executed (snd (execute_sql w (Str s))) = []).
Proof.
  repeat split.
  - unfold query. rewrite snd_bind, executed_app.
    cbn [emit snd fst executed flat_map app].
    destruct (retriever_retrieve w question) as [|c0 rest]; [constructor |].
    destruct (select c0 (c0 :: rest) dataset_id threshold) as [resp | selected].
    + constructor.
    + apply proceed_guarded.
  - intros context dataset. apply fallback_guarded.
  - intros text dataset. apply answer_guarded.
  - intros s Hs. destruct (execute_sql_log w (Str s)) as [[H _] | [s' [E [Hv _]]]].
    + exact H.
    + injection E as <-. congruence.
Qed.

End AgentFacts.

Section Disambiguation.
Import PyStr PyStrFacts Py Guardrails Parser Retrieval Agent Deployment.

Lemma find_among (d : string) (candidates : list (candidate float)) :
  among d candidates ->
  exists c, find (fun c => String.eqb (dataset_id c) d) candidates = Some c
            /\ In c candidates /\ dataset_id c = d.
Proof.
  intros [c [Hin Hd]].
  destruct (find (fun c => String.eqb (dataset_id c) d) candidates) as [c'|] eqn:E.
  - exists c'. apply find_some in E. destruct E as [Hin' E].
    apply String.eqb_eq in E. now repeat split.
  - pose proof (find_none _ _ E c Hin) as H. cbn in H.
    rewrite Hd, String.eqb_refl in H. discriminate.
Qed.


Lemma execute_sql_no_context (w : World) (sql : value) :
  contexts_built (snd (execute_sql w sql)) = [].
Proof.
  destruct sql; try reflexivity.
  unfold execute_sql. now destruct (validate_sql _ _ _) as [[] err].
Qed.

(** The log of [proceed] opens with the context of the selected dataset,
    and no other context is built. *)
Lemma proceed_context (w : World) (question : string) (selected : candidate float) :
  contexts_built (snd (proceed w question selected)) = [dataset_id selected].
Proof.
  unfold proceed. rewrite snd_bind, contexts_built_app.
  cbn [emit snd fst contexts_built flat_map app]. f_equal.
  destruct (llm w) as [invoke|].
  - rewrite snd_bind, contexts_built_app.
    cbn [emit snd fst contexts_built flat_map app].
    unfold answer_from_text.
    destruct (_extract_sql_from_response _) as [ex | e]; [| reflexivity].
    destruct (ex_needs_clar ex && truthy (ex_message ex)); [reflexivity |].
    destruct (negb (truthy (ex_sql ex))); [reflexivity |].
    rewrite snd_bind, contexts_built_app, execute_sql_no_context.
    now destruct (fst (execute_sql w _)) as [[c r]|].
  - rewrite snd_bind, contexts_built_app, app_nil_r.
    unfold _fallback_sql. rewrite snd_bind, contexts_built_app.
    cbn [emit snd fst contexts_built flat_map app].
    destruct (table_registry w _) as [|[schema table] rest]; [reflexivity |].
    rewrite snd_bind, contexts_built_app, execute_sql_no_context.
    now destruct (fst (execute_sql w _)) as [[c r]|].
Qed.

(** [proceed] never asks the caller to choose. *)
Lemma proceed_not_needs_selection (w : World) (question : string)
                                  (selected : candidate float) choices message :
  fst (proceed w question selected) <> Return (RespNeedsSelection choices message).
Proof.
  unfold proceed. rewrite fst_bind. cbn [emit fst].
  destruct (llm w) as [invoke|].
  - rewrite fst_bind. cbn [emit fst]. unfold answer_from_text.
    destruct (_extract_sql_from_response _) as [ex | e]; [| discriminate].
    destruct (ex_needs_clar ex && truthy (ex_message ex)); [discriminate |].
    destruct (negb (truthy (ex_sql ex))); [discriminate |].
    rewrite fst_bind. destruct (fst (execute_sql w _)) as [[c r]|]; discriminate.
  - rewrite fst_bind. cbn [ret fst]. unfold _fallback_sql. rewrite fst_bind.
    cbn [emit fst].
    destruct (table_registry w _) as [|[schema table] rest]; [discriminate |].
    rewrite fst_bind. destruct (fst (execute_sql w _)) as [[c r]|]; discriminate.
Qed.

Lemma query_unfold (w : World) (question : string) (dataset : option string)
                   (threshold : float) (c0 : candidate float)
                   (rest : list (candidate float)) :
  retriever_retrieve w question = c0 :: rest ->
  query w question dataset threshold =
    (emit (EvRetrieve question) ;;
     match select c0 (c0 :: rest) dataset threshold with
     | inl resp => ret (Return resp)
     | inr selected => proceed w question selected
     end).
Proof.
  intros H. unfold query. now rewrite H.
Qed.

End Disambiguation.

Section DisambiguationClaims.
Import PyStr PyStrFacts Py Guardrails Parser Retrieval Agent Deployment.




(** The two disambiguation scenarios of the specification, and the
    boundary: in floating point the gap of 0.35 and 0.2 falls short of
    0.15, and the gap of 0.45 and 0.3 does not. *)
Example disambiguation_scenarios :
  let q := "What are mortgage delinquency rates by state?" in
  contexts_built (snd (query (world_with_scores 0.81 0.62) q None default_threshold))
  = ["cpfb_delinquency"]
  /\ fst (query (world_with_scores 0.81 0.75) q None default_threshold)
     = Return (RespNeedsSelection
                 [ {| choice_dataset_id := "cpfb_delinquency";
                      choice_label := "CPFB Mortgage Delinquency";
                      choice_why := "Mortgage delinquency by state" |};
                   {| choice_dataset_id := "fred_rates";
                      choice_label := "FRED Mortgage Rates";
                      choice_why := "Mortgage rates" |} ]
                 "Which data source should I use?")
  /\ gap_below 0.35 0.2 default_threshold = true
  /\ gap_below 0.45 0.3 default_threshold = false.
Proof.
  repeat split; vm_compute; reflexivity.
Qed.

(** C4.  An override that is supplied (a string that is not empty) and
    names one of the candidates selects that dataset, whatever its rank
    and whatever the gap between the top two scores: [query] goes on with
    it, builds the context of that dataset and of no other, and does not
    return [needs_selection]. *)
Theorem override_among_candidates_wins
    (w : World) (question d : string) (threshold : float) :
  d <> "" -> among d (retriever_retrieve w question) ->
  exists c,
    In c (retriever_retrieve w question) /\ dataset_id c = d
    /\ query w question (Some d) threshold
       = (emit (EvRetrieve question) ;; proceed w question c)
    /\ contexts_built (snd (query w question (Some d) threshold)) = [d]
    /\ forall choices message,
         fst (query w question (Some d) threshold)
         <> Return (RespNeedsSelection choices message).
Proof.
  intros Hd Ha. destruct (find_among _ _ Ha) as [c [Hf [Hin Hc]]].
  exists c. split; [exact Hin | split; [exact Hc |]].
  destruct (retriever_retrieve w question) as [|c0 rest] eqn:Hr; [contradiction |].
  assert (Hq : query w question (Some d) threshold
               = (emit (EvRetrieve question) ;; proceed w question c)).
  { rewrite (query_unfold _ _ _ _ _ _ Hr). unfold select, supplied.
    apply String.eqb_neq in Hd. now rewrite Hd, Hf. }
  rewrite Hq. split; [reflexivity | split].
  - rewrite snd_bind, contexts_built_app. cbn [emit snd fst contexts_built flat_map app].
    rewrite proceed_context. now rewrite Hc.
  - intros choices message. rewrite fst_bind. apply proceed_not_needs_selection.
Qed.

(** A witness: the second-ranked dataset is asked for while the scores of
    the top two are closer than the threshold. *)
Lemma override_among_candidates_wins_witness :
  exists c,
    In c (retriever_retrieve (world None store_empty)
            "What are mortgage delinquency rates by state?")
    /\ dataset_id c = "fred_rates"
    /\ query (world None store_empty)
         "What are mortgage delinquency rates by state?" (Some "fred_rates")
         default_threshold
       = (emit (EvRetrieve "What are mortgage delinquency rates by state?") ;;
          proceed (world None store_empty)
            "What are mortgage delinquency rates by state?" c)
    /\ contexts_built
         (snd (query (world None store_empty)
                 "What are mortgage delinquency rates by state?"
                 (Some "fred_rates") default_threshold)) = ["fred_rates"]
    /\ forall choices message,
         fst (query (world None store_empty)
                "What are mortgage delinquency rates by state?"
                (Some "fred_rates") default_threshold)
         <> Return (RespNeedsSelection choices message).
Proof.
  apply (override_among_candidates_wins (world None store_empty)
           "What are mortgage delinquency rates by state?" "fred_rates"
           default_threshold).
  - discriminate.
  - eexists. split; [right; left; reflexivity | vm_compute; reflexivity].
Defined.

End DisambiguationClaims.

Section ErrorResponses.
Import PyStr PyStrFacts Py Json Guardrails Parser Retrieval Agent Deployment.

(** On the generative path, when [execute_sql] raises (the validator
    refuses the statement, or the store does), the error response carries
    the extracted SQL and the resolved dataset. *)
Lemma generative_error_keeps_context
    (w : World) (resolved text : string) (ex : extracted) (e : string) :
  _extract_sql_from_response text = Return ex ->
  ex_needs_clar ex && truthy (ex_message ex) = false ->
  truthy (ex_sql ex) = true ->
  fst (execute_sql w (ex_sql ex)) = Raise e ->
  fst (answer_from_text w resolved text)
  = Return (RespError (Str ("SQL execution failed: " ++ e))
                      (Some (ex_sql ex)) (Some resolved)).
Proof.
  intros Hx Hc Hs He. unfold answer_from_text.
  rewrite Hx, Hc, Hs. cbn [negb]. rewrite fst_bind, He. reflexivity.
Qed.

(** On the fallback path no error response carries either. *)
Lemma fallback_error_shape
    (w : World) (question dataset context : string)
    (message : value) (sql : option value) (ds : option string) :
  fst (_fallback_sql w question dataset context) = RespError message sql ds ->
  sql = None /\ ds = None.
Proof.
  unfold _fallback_sql. rewrite fst_bind. cbn [emit fst].
  destruct (table_registry w dataset) as [|[schema table] rest].
  - cbn. intros H. injection H as _ <- <-. now split.
  - rewrite fst_bind. destruct (fst (execute_sql w _)) as [[c r]|e]; cbn.
    + discriminate.
    + intros H. injection H as _ <- <-. now split.
Qed.

(** C8, the code at two failing inputs.  No generative backend is
    configured.  First the store raises on the template statement; then
    the validator refuses the statement built for a table outside the
    allow-list.  Both times a dataset was resolved and SQL was produced,
    and the error response carries neither of them. *)
Theorem fallback_error_drops_sql_and_dataset :
  query (world None store_without_tables) "mortgage rates weekly" None
        default_threshold
  = (Return (RespError (Str "no such table") None None),
     [EvRetrieve "mortgage rates weekly"; EvContext "fred_rates";
      EvRegistry "fred_rates";
      EvExecute "SELECT * FROM fred_mortgage_rates WHERE date >= '2023-01-01' ORDER BY date DESC LIMIT 100"])
  /\ query world_with_unlisted_table "show me everything" None default_threshold
     = (Return (RespError (Str "Table not allowed: loan_servicing") None None),
        [EvRetrieve "show me everything"; EvContext "servicing";
         EvRegistry "servicing"]).
Proof.
  split; vm_compute; reflexivity.
Qed.

(** A tuple with the clarification flag comes from the clarification
    branch of the structured strategy: it has no SQL and no metadata. *)
Lemma clarification_tuple (text : string) (ex : extracted) :
  _extract_sql_from_response text = Return ex -> ex_needs_clar ex = true ->
  ex_sql ex = None_ /\ ex_meta ex = None.
Proof.
  rewrite extract_unfold.
  destruct (structured (strip text)) as [obj|] eqn:Es.
  - destruct (structured_dict _ _ Es) as [d ->]. unfold from_object.
    destruct (truthy (dict_get "needs_clarification" None_ d));
      intros H; injection H as <-; cbn; [now split | discriminate].
  - intros H. injection H as <-.
    destruct (extract_unstructured_cases (strip text)) as [[s [_ [_ [H _]]]] | ->].
    + congruence.
    + discriminate.
Qed.

(** C10.  When the parsed output signals a clarification need and carries
    no question (the question is absent, null, empty or otherwise false),
    [query] does not return [needs_clarification]: it falls through to the
    test of the SQL, which is null, and returns an error response.  So the
    question of every [needs_clarification] response is true in the
    Python sense; in particular it is not the empty string and not
    null. *)
Theorem clarification_needs_question :
  (forall (w : World) (resolved text : string) (ex : extracted),
     _extract_sql_from_response text = Return ex ->
     ex_needs_clar ex = true -> truthy (ex_message ex) = false ->
     answer_from_text w resolved text
     = (Return (RespError (Str "Could not generate SQL") None None), []))
  /\ (forall (w : World) (question : string) (override : option string)
             (threshold : float) (v : value),
        fst (query w question override threshold)
        = Return (RespNeedsClarification v) ->
        truthy v = true /\ v <> Str "" /\ v <> None_).
Proof.
  split.
  - intros w resolved text ex Hx Hc Hq.
    destruct (clarification_tuple _ _ Hx Hc) as [Hs Hm].
    unfold answer_from_text. rewrite Hx, Hc, Hq, Hs, Hm. reflexivity.
  - intros w question override threshold v.
    assert (Hv : truthy v = true -> truthy v = true /\ v <> Str "" /\ v <> None_).
    { intros H. repeat split; [exact H | |]; intros ->; discriminate. }
    unfold query. rewrite fst_bind. cbn [emit fst].
    destruct (retriever_retrieve w question) as [|c0 rest]; [discriminate |].
    destruct (select c0 (c0 :: rest) override threshold) as [resp | selected] eqn:Es.
    { unfold select in Es. destruct (supplied override); [discriminate |].
      cbn [map] in Es. destruct rest as [|c1 r]; [discriminate |].
      cbn [map] in Es. destruct (gap_below _ _ _); [| discriminate].
      injection Es as <-. discriminate. }
    unfold proceed. rewrite fst_bind. cbn [emit fst].
    destruct (llm w) as [invoke|].
    + rewrite fst_bind. cbn [emit fst]. unfold answer_from_text.
      destruct (_extract_sql_from_response _) as [ex | e]; [| discriminate].
      destruct (ex_needs_clar ex && truthy (ex_message ex)) eqn:Ec.
      * cbn. intros H. injection H as <-. apply Hv.
        apply andb_true_iff in Ec. now destruct Ec.
      * destruct (negb (truthy (ex_sql ex))); [discriminate |].
        rewrite fst_bind. destruct (fst (execute_sql w _)) as [[c r]|]; discriminate.
    + rewrite fst_bind. cbn [ret fst]. unfold _fallback_sql. rewrite fst_bind.
      cbn [emit fst].
      destruct (table_registry w _) as [|[schema table] rest']; [discriminate |].
      rewrite fst_bind. destruct (fst (execute_sql w _)) as [[c r]|]; discriminate.
Qed.

(** A witness: that answer, given to any question about mortgage rates. *)
Lemma clarification_needs_question_witness :
  answer_from_text (world (Some (fun _ => flag_without_question)) store_empty)
    "fred_rates" flag_without_question
  = (Return (RespError (Str "Could not generate SQL") None None), []).
Proof.
  refine (proj1 clarification_needs_question _ _ _ _ _ _ _).
  - vm_compute. reflexivity.
  - reflexivity.
  - reflexivity.
Defined.

(** The same answer through [query], and an answer that does ask. *)
Example clarification_through_query :
  fst (query (world (Some (fun _ => flag_without_question)) store_empty)
         "mortgage rates weekly" None default_threshold)
  = Return (RespError (Str "Could not generate SQL") None None)
  /\ fst (query (world (Some (fun _ =>
            "{" ++ quoted "sql" ++ ": null, " ++ quoted "needs_clarification"
            ++ ": true, " ++ quoted "clarifying_question" ++ ": "
            ++ quoted "Which year?" ++ "}")) store_empty)
            "mortgage rates weekly" None default_threshold)
     = Return (RespNeedsClarification (Str "Which year?")).
Proof.
  split; vm_compute; reflexivity.
Qed.

End ErrorResponses.

(** ** The keyword retriever *)

Section KeywordRetrieval.
Import PyStr PyStrFacts Retrieval.
Local Open Scope Q_scope.

(** Rounding to the nearest integer: the integer found lies between the
    floor and its successor, and within one half of the number. *)
Lemma round_half_even_bounds (q : Q) :
  (Qfloor q <= round_half_even q <= Qfloor q + 1)%Z.
Proof.
  unfold round_half_even.
  destruct (Qcompare _ _); [destruct (Z.even _) | |]; lia.
Qed.


(** Rounding keeps the order. *)
Lemma round_half_even_mono (x y : Q) :
  x <= y -> (round_half_even x <= round_half_even y)%Z.
Proof.
  intros Hxy. pose proof (Qfloor_resp_le x y Hxy) as Hf.
  destruct (Z.eq_dec (Qfloor x) (Qfloor y)) as [E | N].
  - unfold round_half_even. rewrite <- E.
    destruct (Qcompare_spec (x - inject_Z (Qfloor x)) (1 # 2)) as [He | Hl | Hg];
      destruct (Qcompare_spec (y - inject_Z (Qfloor x)) (1 # 2)) as [He' | Hl' | Hg'];
      try destruct (Z.even (Qfloor x)); try lia; exfalso; lra.
  - pose proof (round_half_even_bounds x). pose proof (round_half_even_bounds y).
    lia.
Qed.

Lemma round4_mono (x y : Q) : x <= y -> round4 x <= round4 y.
Proof.
  intros Hxy. unfold round4, Qle. cbn [Qnum Qden].
  apply Z.mul_le_mono_nonneg_r; [lia |].
  apply round_half_even_mono. lra.
Qed.


Lemma insert_by_score_In (x y : dataset_row * Q) (l : list (dataset_row * Q)) :
  In y (insert_by_score x l) <-> y = x \/ In y l.
Proof.
  induction l as [|z l IH]; cbn [insert_by_score].
  - cbn. intuition.
  - destruct (Qle_bool (snd z) (snd x)); cbn [In].
    + intuition.
    + rewrite IH. intuition.
Qed.



Lemma sort_by_score_In (y : dataset_row * Q) (l : list (dataset_row * Q)) :
  In y (sort_by_score l) <-> In y l.
Proof.
  induction l as [|x l IH]; cbn; [tauto |].
  rewrite insert_by_score_In, IH. intuition.
Qed.

Lemma firstn_subset {A : Type} (n : nat) (l : list A) (x : A) :
  In x (firstn n l) -> In x l.
Proof.
  revert l. induction n as [|n IH]; intros [|y l]; cbn; try tauto.
  intros [-> | H]; [now left | right; now apply IH].
Qed.



(** Each scored row is a row of the store with a positive score. *)
Lemma scored_rows_In (ql : string) (rows : list dataset_row) (c : dataset_row * Q) :
  In c (scored_rows ql rows) <->
  In (fst c) rows /\ snd c = keyword_score ql (fst c) /\ 0 < snd c.
Proof.
  unfold scored_rows. rewrite filter_In, in_map_iff, negb_true_iff. split.
  - intros [[row [<- Hin]] Hpos]. cbn [fst snd] in *. repeat split; [exact Hin |].
    destruct (Qlt_le_dec 0 (keyword_score ql row)) as [H | H]; [exact H |].
    apply Qle_bool_iff in H. congruence.
  - intros [Hin [Hs Hpos]]. split.
    + exists (fst c). split; [| exact Hin]. destruct c as [row q]. cbn in *. now subst.
    + destruct (Qle_bool (snd c) 0) eqn:E; [| reflexivity].
      apply Qle_bool_iff in E. lra.
Qed.


End KeywordRetrieval.

Section KeywordRetrievalClaims.
Import PyStr PyStrFacts Retrieval Deployment.
Local Open Scope Q_scope.



(** The retriever over the registry that [scripts/init_db.py] loads. *)
Example retrieve_delinquency_question :
  map (fun c => (dataset_id c, score c))
      (retrieve dataset_registry default_top_k
         "What are mortgage delinquency rates by state?")
  = [("cpfb_delinquency", 4286 # 10000); ("fred_rates", 2857 # 10000)].
Proof.
  vm_compute. reflexivity.
Qed.

End KeywordRetrievalClaims.

(** * Further properties of the code *)

(** ** Limit injection and the validator *)

Section GuardrailExtras.
Import PyStr PyStrFacts Guardrails.


Lemma validate_sql_verdict_of_order
    (ord1 ord2 : SetIter) (sql : string) (allowed_tables : option (list string)) :
  fst (validate_sql ord1 sql allowed_tables)
  = fst (validate_sql ord2 sql allowed_tables).
Proof.
  destruct (validate_sql_cases ord1 sql allowed_tables)
    as [[He ->] | [[Hne [kw [Hin [Hocc ->]]]]
       | [[Hne [Hnk [t [Hin [Hnm ->]]]]] | [Hne [Hnk [Hall ->]]]]]];
    destruct (validate_sql_cases ord2 sql allowed_tables)
    as [[He' ->] | [[Hne' [kw' [Hin' [Hocc' ->]]]]
       | [[Hne' [Hnk' [t' [Hin' [Hnm' ->]]]]] | [Hne' [Hnk' [Hall' ->]]]]]];
    cbn [fst]; try reflexivity; exfalso.
  all: try contradiction.
  all: try (now apply (Hnk kw')).
  all: try (now apply (Hnk' kw)).
  all: try (now apply Hnm, Hall').
  all: try (now apply Hnm', Hall).
Qed.

(** X2.  Whether [validate_sql] passes does not depend on the order in
    which Python iterates over its sets; the reason it gives for a
    refusal may: a statement that contains [execute] is refused for
    [execute] under one order and for [exec] under another. *)
Theorem validate_sql_verdict_order_free
    (ord1 ord2 : SetIter) (sql : string) (allowed_tables : option (list string)) :
  fst (validate_sql ord1 sql allowed_tables)
  = fst (validate_sql ord2 sql allowed_tables)
  /\ (exists o1 o2 s,
        snd (validate_sql o1 s None) <> snd (validate_sql o2 s None)).
Proof.
  split; [apply validate_sql_verdict_of_order |].
  exists first_seen, last_seen, "execute". vm_compute. discriminate.
Qed.

End GuardrailExtras.

(** ** The runs of the orchestrator *)

Section OrchestratorRuns.
Import PyStr PyStrFacts Py Json Guardrails Parser Retrieval Agent AgentParts.

Lemma extract_returns (text : string) :
  exists e, _extract_sql_from_response text = Return e.
Proof.
  rewrite extract_unfold.
  destruct (structured (strip text)) as [obj|] eqn:Es; [| now eexists].
  destruct (structured_dict _ _ Es) as [d ->]. unfold from_object.
  destruct (truthy _); now eexists.
Qed.

(** The three ways in which [execute_sql] ends. *)
Lemma execute_sql_cases (w : World) (sql : value) :
  (exists s, sql = Str s
     /\ fst (validate_sql (set_order w) (injected s) None) = false
     /\ execute_sql w sql
        = (Raise (snd (validate_sql (set_order w) (injected s) None)), []))
  \/ (exists s, sql = Str s
        /\ fst (validate_sql (set_order w) (injected s) None) = true
        /\ execute_sql w sql = (store_execute w (injected s), [EvExecute (injected s)]))
  \/ ((forall s, sql <> Str s)
      /\ execute_sql w sql = (Raise (no_strip_message sql), [])).
Proof.
  destruct sql as [| b | n | lex | s | l | d];
    try (right; right; split; [intros s' H; discriminate | reflexivity]).
  unfold execute_sql, injected.
  destruct (validate_sql (set_order w) (add_limit_if_missing s default_limit) None)
    as [[] err] eqn:E; cbn [negb].
  - right. left. exists s. rewrite E. repeat split.
  - left. exists s. rewrite E. repeat split.
Qed.

Lemma fallback_unfold (w : World) (question dataset context : string) :
  _fallback_sql w question dataset context =
    (emit (EvRegistry dataset) ;;
     match table_registry w dataset with
     | [] => ret (RespError (Str "No tables for dataset") None None)
     | (schema, table) :: _ =>
         let sql := fallback_statement (lower question)
                      (full_table_name schema table) in
         r <- execute_sql w (Str sql) ;;
         match r with
         | Return (columns, rs) =>
             ret (RespOk dataset (Str sql) columns rs (fallback_explanation table))
         | Raise e => ret (RespError (Str e) None None)
         end
     end).
Proof.
  reflexivity.
Qed.

(** The four ways in which the fallback path ends. *)
Lemma fallback_cases (w : World) (question dataset context : string) :
  (table_registry w dataset = []
   /\ _fallback_sql w question dataset context
      = (RespError (Str "No tables for dataset") None None, [EvRegistry dataset]))
  \/ exists schema table rest,
       table_registry w dataset = (schema, table) :: rest /\
       let sql := fallback_statement (lower question)
                    (full_table_name schema table) in
       (fst (validate_sql (set_order w) (injected sql) None) = false
        /\ _fallback_sql w question dataset context
           = (RespError (Str (snd (validate_sql (set_order w) (injected sql) None)))
                        None None,
              [EvRegistry dataset]))
       \/ (fst (validate_sql (set_order w) (injected sql) None) = true
           /\ exists e, store_execute w (injected sql) = Raise e
           /\ _fallback_sql w question dataset context
              = (RespError (Str e) None None,
                 [EvRegistry dataset; EvExecute (injected sql)]))
       \/ (fst (validate_sql (set_order w) (injected sql) None) = true
           /\ exists columns rs, store_execute w (injected sql) = Return (columns, rs)
           /\ _fallback_sql w question dataset context
              = (RespOk dataset (Str sql) columns rs (fallback_explanation table),
                 [EvRegistry dataset; EvExecute (injected sql)])).
Proof.
  rewrite fallback_unfold.
  destruct (table_registry w dataset) as [|[schema table] rest]; [left; now split |].
  right. exists schema, table, rest. split; [reflexivity |]. cbv zeta.
  set (sql := fallback_statement (lower question) (full_table_name schema table)).
  destruct (execute_sql_cases w (Str sql))
    as [[s [Hs [Hv He]]] | [[s [Hs [Hv He]]] | [Hn _]]].
  - injection Hs as <-. left. split; [exact Hv |]. now rewrite He.
  - injection Hs as <-. right. rewrite He.
    destruct (store_execute w (injected sql)) as [[columns rs] | e] eqn:Est.
    + right. split; [exact Hv |]. exists columns, rs. now split.
    + left. split; [exact Hv |]. exists e. now split.
  - exfalso. now apply (Hn sql).
Qed.

(** The ways in which the generative path ends, from the response text
    on. *)
Lemma answer_cases (w : World) (resolved text : string) :
  exists ex, _extract_sql_from_response text = Return ex /\
    ((ex_needs_clar ex = true /\ truthy (ex_message ex) = true
      /\ answer_from_text w resolved text
         = (Return (RespNeedsClarification (ex_message ex)), []))
     \/ (ex_needs_clar ex && truthy (ex_message ex) = false
         /\ truthy (ex_sql ex) = false
         /\ exists m, answer_from_text w resolved text
                      = (Return (RespError m None None), []))
     \/ (ex_needs_clar ex && truthy (ex_message ex) = false
         /\ truthy (ex_sql ex) = true
         /\ exists e, fst (execute_sql w (ex_sql ex)) = Raise e
            /\ answer_from_text w resolved text
               = (Return (RespError (Str ("SQL execution failed: " ++ e))
                                    (Some (ex_sql ex)) (Some resolved)),
                  snd (execute_sql w (ex_sql ex))))
     \/ (ex_needs_clar ex && truthy (ex_message ex) = false
         /\ truthy (ex_sql ex) = true
         /\ exists columns rs expl,
              fst (execute_sql w (ex_sql ex)) = Return (columns, rs)
              /\ answer_from_text w resolved text
                 = (Return (RespOk resolved (ex_sql ex) columns rs expl),
                    snd (execute_sql w (ex_sql ex))))).
Proof.
  destruct (extract_returns text) as [ex Hx]. exists ex. split; [exact Hx |].
  unfold answer_from_text. rewrite Hx.
  destruct (ex_needs_clar ex && truthy (ex_message ex)) eqn:Ec.
  { apply andb_true_iff in Ec. destruct Ec as [H1 H2]. left. now repeat split. }
  right. destruct (truthy (ex_sql ex)) eqn:Es; cbn [negb].
  - right. destruct (execute_sql w (ex_sql ex)) as [r l] eqn:Ee.
    cbn [bind fst snd]. destruct r as [[columns rs] | e].
    + right. repeat split. exists columns, rs. eexists. split; [reflexivity |].
      cbn. now rewrite app_nil_r.
    + left. repeat split. exists e. split; [reflexivity |].
      cbn. now rewrite app_nil_r.
  - left. repeat split. now eexists.
Qed.

Lemma proceed_unfold (w : World) (question : string) (selected : candidate float) :
  proceed w question selected =
    (let d := dataset_id selected in
     match llm w with
     | None =>
         (Return (fst (_fallback_sql w question d (build_context w d))),
          EvContext d :: snd (_fallback_sql w question d (build_context w d)))
     | Some invoke =>
         let p := user_prompt (build_context w d) question in
         (fst (answer_from_text w d (invoke p)),
          EvContext d :: EvGenerate p :: snd (answer_from_text w d (invoke p)))
     end).
Proof.
  unfold proceed. cbv zeta. destruct (llm w) as [invoke|].
  - unfold user_prompt.
    destruct (answer_from_text w _ _) as [r l]. reflexivity.
  - destruct (_fallback_sql w _ _ _) as [r l]. cbn. now rewrite app_nil_r.
Qed.

Lemma query_run (w : World) (question : string) (dataset : option string)
                (threshold : float) :
  query w question dataset threshold =
    match retriever_retrieve w question with
    | [] =>
        (Return (RespError
                   (Str "No matching datasets found. Try rephrasing your question.")
                   None None),
         [EvRetrieve question])
    | c0 :: rest =>
        match select c0 (c0 :: rest) dataset threshold with
        | inl resp => (Return resp, [EvRetrieve question])
        | inr selected =>
            (fst (proceed w question selected),
             EvRetrieve question :: snd (proceed w question selected))
        end
    end.
Proof.
  unfold query.
  destruct (retriever_retrieve w question) as [|c0 rest]; [reflexivity |].
  destruct (select c0 (c0 :: rest) dataset threshold) as [resp | selected];
    [reflexivity |].
  cbn [emit bind]. now destruct (proceed w question selected) as [r l].
Qed.

End OrchestratorRuns.

(** ** What a run of [query] calls, and what its responses report *)

Section OrchestratorExtras.
Import PyStr PyStrFacts Py Json Guardrails Parser Retrieval Agent AgentParts.

Lemma select_among (c0 : candidate float) (rest : list (candidate float))
                   (o : option string) (t : float) (sel : candidate float) :
  select c0 (c0 :: rest) o t = inr sel -> In sel (c0 :: rest).
Proof.
  unfold select. destruct (supplied o) as [d|].
  - intros H. injection H as <-.
    match goal with
    | |- In (match ?f with Some _ => _ | None => _ end) _ =>
        destruct f as [c|] eqn:Ef; [| now left]
    end.
    exact (proj1 (find_some (fun c => String.eqb (Retrieval.dataset_id c) d)
                            (c0 :: rest) Ef)).
  - destruct rest as [|c1 rest']; cbn [map].
    + intros H. injection H as <-. now left.
    + destruct (gap_below _ _ _); [discriminate |].
      intros H. injection H as <-. now left.
Qed.

Lemma select_asks (c0 : candidate float) (rest : list (candidate float))
                  (o : option string) (t : float) (resp : response) :
  select c0 (c0 :: rest) o t = inl resp ->
  supplied o = None
  /\ (exists c1 rest', rest = c1 :: rest'
        /\ gap_below (score c0) (score c1) t = true)
  /\ resp = RespNeedsSelection (map to_choice (firstn 3 (c0 :: rest)))
                               "Which data source should I use?".
Proof.
  unfold select. destruct (supplied o) as [d|]; [discriminate |].
  destruct rest as [|c1 rest']; cbn [map]; [discriminate |].
  destruct (gap_below _ _ _) eqn:Eg; [| discriminate].
  intros H. injection H as <-. repeat split. now exists c1, rest'.
Qed.

Lemma execute_sql_calls (w : World) (sql : value) :
  snd (execute_sql w sql) = []
  \/ exists s, snd (execute_sql w sql) = [EvExecute s].
Proof.
  destruct (execute_sql_cases w sql)
    as [[s [_ [_ ->]]] | [[s [_ [_ ->]]] | [_ ->]]]; cbn [snd];
    [now left | right; now eexists | now left].
Qed.

Lemma fallback_calls (w : World) (question dataset context : string) :
  snd (_fallback_sql w question dataset context) = [EvRegistry dataset]
  \/ exists s, snd (_fallback_sql w question dataset context)
               = [EvRegistry dataset; EvExecute s].
Proof.
  destruct (fallback_cases w question dataset context)
    as [[_ ->] | [schema [table [rest [_ H]]]]]; [now left |].
  cbv zeta in H.
  destruct H as [[_ ->] | [[_ [e [_ ->]]] | [_ [columns [rs [_ ->]]]]]]; cbn [snd];
    [now left | right; now eexists | right; now eexists].
Qed.

Lemma answer_calls (w : World) (resolved text : string) :
  snd (answer_from_text w resolved text) = []
  \/ exists s, snd (answer_from_text w resolved text) = [EvExecute s].
Proof.
  destruct (answer_cases w resolved text) as [ex [_ H]].
  destruct H as [[_ [_ ->]] | [[_ [_ [m ->]]] | [[_ [_ [e [_ ->]]]] | H]]];
    cbn [snd]; try (now left); try apply execute_sql_calls.
  destruct H as [_ [_ [columns [rs [expl [_ ->]]]]]]. apply execute_sql_calls.
Qed.

(** X3.  The calls of one run of [query], in their order: the retriever
    once, with the question; then either nothing more, or one context
    built for a dataset among the candidates, followed by one reading of
    that dataset's table registry when there is no generative backend, or
    by one prompt to the backend when there is one; and at the end at
    most one statement sent to the SQL store. *)
Theorem query_call_sequence
    (w : World) (question : string) (dataset : option string) (threshold : float) :
  exists tail,
    snd (query w question dataset threshold) = EvRetrieve question :: tail
    /\ (tail = []
        \/ exists d,
             In d (map Retrieval.dataset_id (retriever_retrieve w question))
             /\ ((llm w = None
                  /\ (tail = [EvContext d; EvRegistry d]
                      \/ exists s, tail = [EvContext d; EvRegistry d; EvExecute s]))
                 \/ (exists invoke, llm w = Some invoke
                     /\ let p := user_prompt (build_context w d) question in
                        (tail = [EvContext d; EvGenerate p]
                         \/ exists s,
                              tail = [EvContext d; EvGenerate p; EvExecute s])))).
Proof.
  rewrite query_run.
  destruct (retriever_retrieve w question) as [|c0 rest] eqn:Er.
  { exists []. split; [reflexivity | now left]. }
  destruct (select c0 (c0 :: rest) dataset threshold) as [resp | sel] eqn:Es.
  { exists []. split; [reflexivity | now left]. }
  exists (snd (proceed w question sel)). split; [reflexivity |]. right.
  exists (Retrieval.dataset_id sel). split.
  { apply in_map. exact (select_among _ _ _ _ _ Es). }
  rewrite proceed_unfold. cbv zeta. destruct (llm w) as [invoke|]; cbn [snd].
  - right. exists invoke. split; [reflexivity |].
    destruct (answer_calls w (Retrieval.dataset_id sel)
                (invoke (user_prompt (build_context w (Retrieval.dataset_id sel))
                                     question)))
      as [-> | [s ->]]; [now left | right; now exists s].
  - left. split; [reflexivity |].
    destruct (fallback_calls w question (Retrieval.dataset_id sel)
                (build_context w (Retrieval.dataset_id sel)))
      as [-> | [s ->]]; [now left | right; now exists s].
Qed.

(** X4.  An [ok] response reports what was run: its [sql] is a string,
    the statement sent to the store is that string after limit
    injection and is the only one, it passed the validator, the columns
    and rows are those the store returned for it, and the context was
    built for the dataset the response names, and for no other. *)
Theorem ok_response_reports_what_ran
    (w : World) (question : string) (dataset : option string) (threshold : float)
    (d : string) (sql : value) (columns : list string) (rs : rows)
    (expl : explanation) :
  fst (query w question dataset threshold)
  = Return (RespOk d sql columns rs expl) ->
  exists s,
    sql = Str s
    /\ fst (validate_sql (set_order w) (injected s) None) = true
    /\ store_execute w (injected s) = Return (columns, rs)
    /\ executed (snd (query w question dataset threshold)) = [injected s]
    /\ contexts_built (snd (query w question dataset threshold)) = [d].
Proof.
  rewrite query_run.
  destruct (retriever_retrieve w question) as [|c0 rest]; [discriminate |].
  destruct (select c0 (c0 :: rest) dataset threshold) as [resp | sel] eqn:Es.
  { cbn [fst]. intros H. injection H as ->.
    apply select_asks in Es. destruct Es as [_ [_ H]]. discriminate. }
  rewrite proceed_unfold. cbv zeta. destruct (llm w) as [invoke|]; cbn [fst snd].
  - set (text := invoke _).
    destruct (answer_cases w (Retrieval.dataset_id sel) text) as [ex [_ H]].
    destruct H as [[_ [_ ->]] | [[_ [_ [m ->]]] | [[_ [_ [e [_ ->]]]] | H]]];
      cbn [fst snd]; try discriminate.
    destruct H as [_ [_ [columns' [rs' [expl' [He ->]]]]]]. cbn [fst snd].
    intros H. injection H as <- <- <- <- <-.
    destruct (execute_sql_cases w (ex_sql ex))
      as [[s [_ [_ Hx]]] | [[s [Hs [Hv Hx]]] | [_ Hx]]];
      rewrite Hx in He |- *; cbn [fst snd] in He |- *; try discriminate.
    exists s. repeat split; [exact Hs | exact Hv | exact He].
  - set (ctx := build_context w _).
    destruct (fallback_cases w question (Retrieval.dataset_id sel) ctx)
      as [[_ ->] | [schema [table [rest' [_ H]]]]]; [discriminate |].
    cbv zeta in H.
    destruct H as [[_ ->] | [[_ [e [_ ->]]] | [Hv [columns' [rs' [Hst ->]]]]]];
      cbn [fst snd]; try discriminate.
    intros H. injection H as <- <- <- <- <-.
    eexists. repeat split; [exact Hv | exact Hst].
Qed.

Lemma ok_response_reports_what_ran_witness :
  let w := Deployment.world None Deployment.store_empty in
  exists s,
    Str "SELECT * FROM fred_mortgage_rates WHERE date >= '2023-01-01' ORDER BY date DESC LIMIT 100"
    = Str s
    /\ fst (validate_sql (set_order w) (injected s) None) = true
    /\ store_execute w (injected s) = Return ([], [])
    /\ executed (snd (query w "weekly mortgage rates" None default_threshold))
       = [injected s]
    /\ contexts_built (snd (query w "weekly mortgage rates" None default_threshold))
       = ["fred_rates"].
Proof.
  intros w.
  eapply (ok_response_reports_what_ran w "weekly mortgage rates" None
            default_threshold "fred_rates").
  vm_compute. reflexivity.
Defined.

End OrchestratorExtras.

Section SelectionExtras.
Import PyStr PyStrFacts Py Json Guardrails Parser Retrieval Agent AgentParts.

Lemma select_supplied (c0 : candidate float) (cs : list (candidate float))
                      (d : string) (t : float) :
  d <> "" ->
  select c0 cs (Some d) t
  = inr (match find (fun c => String.eqb (Retrieval.dataset_id c) d) cs with
         | Some c => c
         | None => c0
         end).
Proof.
  intros Hd. unfold select, supplied.
  destruct (String.eqb d "") eqn:E; [| reflexivity].
  apply String.eqb_eq in E. contradiction.
Qed.

(** X5.  A dataset identifier that is not empty switches the score test
    off: the run does not depend on the disambiguation threshold, and
    its response is never [needs_selection], whether or not the
    identifier is one of the candidates. *)
Theorem override_switches_score_test_off
    (w : World) (question d : string) (t1 t2 : float) :
  d <> "" ->
  query w question (Some d) t1 = query w question (Some d) t2
  /\ forall choices message,
       fst (query w question (Some d) t1)
       <> Return (RespNeedsSelection choices message).
Proof.
  intros Hd. rewrite !query_run.
  destruct (retriever_retrieve w question) as [|c0 rest]; [split; [reflexivity | discriminate] |].
  rewrite !(select_supplied _ _ _ _ Hd). split; [reflexivity |].
  intros choices message. cbn [fst]. apply proceed_not_needs_selection.
Qed.

Lemma override_switches_score_test_off_witness :
  let w := Deployment.world_with_scores 0.81 0.75 in
  query w "mortgage delinquency" (Some "fhfa_hpi") 0.15
  = query w "mortgage delinquency" (Some "fhfa_hpi") 0.9
  /\ forall choices message,
       fst (query w "mortgage delinquency" (Some "fhfa_hpi") 0.15)
       <> Return (RespNeedsSelection choices message).
Proof.
  intros w.
  apply (override_switches_score_test_off w "mortgage delinquency" "fhfa_hpi").
  discriminate.
Defined.

(** X6.  A [needs_selection] response is returned only when no dataset
    identifier was supplied (none, or the empty string) and the two best
    scores lie closer than the threshold.  Its choices are the first
    three candidates in the retriever's order, with their identifier,
    label and reason, so there are two or three of them; its message is
    fixed; and the run has called the retriever and nothing else. *)
Theorem needs_selection_shape
    (w : World) (question : string) (dataset : option string) (threshold : float)
    (choices : list choice) (message : string) :
  fst (query w question dataset threshold)
  = Return (RespNeedsSelection choices message) ->
  supplied dataset = None
  /\ (exists c0 c1 rest,
        retriever_retrieve w question = c0 :: c1 :: rest
        /\ gap_below (score c0) (score c1) threshold = true)
  /\ choices = map to_choice (firstn 3 (retriever_retrieve w question))
  /\ 2 <= List.length choices <= 3
  /\ message = "Which data source should I use?"
  /\ snd (query w question dataset threshold) = [EvRetrieve question].
Proof.
  rewrite query_run.
  destruct (retriever_retrieve w question) as [|c0 rest]; [discriminate |].
  destruct (select c0 (c0 :: rest) dataset threshold) as [resp | sel] eqn:Es.
  - cbn [fst snd]. intros H. injection H as ->.
    apply select_asks in Es. destruct Es as [Hs [[c1 [rest' [-> Hg]]] H]].
    injection H as -> ->. repeat split; try assumption.
    + now exists c0, c1, rest'.
    + destruct rest' as [|c2 r]; cbn; lia.
    + destruct rest' as [|c2 r]; cbn; lia.
  - intros H. exfalso. revert H. apply proceed_not_needs_selection.
Qed.

Lemma needs_selection_shape_witness :
  let w := Deployment.world_with_scores 0.81 0.75 in
  let choices :=
    [ {| choice_dataset_id := "cpfb_delinquency";
         choice_label := "CPFB Mortgage Delinquency";
         choice_why := "Mortgage delinquency by state" |};
      {| choice_dataset_id := "fred_rates"; choice_label := "FRED Mortgage Rates";
         choice_why := "Mortgage rates" |} ] in
  supplied (Some "") = None
  /\ (exists c0 c1 rest,
        retriever_retrieve w "mortgage delinquency" = c0 :: c1 :: rest
        /\ gap_below (score c0) (score c1) default_threshold = true)
  /\ choices = map to_choice (firstn 3 (retriever_retrieve w "mortgage delinquency"))
  /\ 2 <= List.length choices <= 3
  /\ "Which data source should I use?" = "Which data source should I use?"
  /\ snd (query w "mortgage delinquency" (Some "") default_threshold)
     = [EvRetrieve "mortgage delinquency"].
Proof.
  intros w choices.
  apply (needs_selection_shape w "mortgage delinquency" (Some "") default_threshold).
  vm_compute. reflexivity.
Defined.

End SelectionExtras.

Section AnswerExtras.
Import PyStr PyStrFacts Py Json Guardrails Parser Retrieval Agent AgentParts.

(** X7.  When the object decoded from the backend's answer flags a need
    for clarification, whatever it carries under [sql] is discarded: no
    statement is sent to the store, and the response is the
    clarification when the object's question is true in the Python
    sense, and the error [Could not generate SQL] otherwise. *)
Theorem flagged_answer_discards_its_sql
    (w : World) (resolved text : string) (d : list (string * value)) :
  structured (strip text) = Some (Dict d) ->
  truthy (dict_get "needs_clarification" None_ d) = true ->
  answer_from_text w resolved text
  = (Return (if truthy (dict_get "clarifying_question" None_ d)
             then RespNeedsClarification (dict_get "clarifying_question" None_ d)
             else RespError (Str "Could not generate SQL") None None),
     []).
Proof.
  intros Hs Hf. unfold answer_from_text. rewrite extract_unfold, Hs.
  unfold from_object. rewrite Hf. cbn [ex_needs_clar ex_message ex_sql ex_meta andb].
  now destruct (truthy (dict_get "clarifying_question" None_ d)).
Qed.

Lemma flagged_answer_discards_its_sql_witness :
  let text := "{" ++ quoted "sql" ++ ": " ++ quoted "SELECT * FROM fred_mortgage_rates"
              ++ ", " ++ quoted "needs_clarification" ++ ": true, "
              ++ quoted "clarifying_question" ++ ": " ++ quoted "Which year?" ++ "}" in
  answer_from_text (Deployment.world None Deployment.store_empty) "fred_rates" text
  = (Return (RespNeedsClarification (Str "Which year?")), []).
Proof.
  intros text.
  apply (flagged_answer_discards_its_sql
           (Deployment.world None Deployment.store_empty) "fred_rates" text
           [("sql", Str "SELECT * FROM fred_mortgage_rates");
            ("needs_clarification", Bool true);
            ("clarifying_question", Str "Which year?")]).
  - vm_compute. reflexivity.
  - vm_compute. reflexivity.
Defined.

(** X8.  When the backend's answer carries under [sql] a value that is
    true in the Python sense and is not a string (a number, [true], a
    list), nothing is sent to the store: the attribute error of
    [sql.strip()] is caught, and the response is an error that names the
    value's type and carries the value itself under [sql]. *)
Theorem non_text_sql_is_reported
    (w : World) (resolved text : string) (ex : extracted) :
  _extract_sql_from_response text = Return ex ->
  ex_needs_clar ex = false ->
  truthy (ex_sql ex) = true ->
  is_text (ex_sql ex) = false ->
  answer_from_text w resolved text
  = (Return (RespError
               (Str ("SQL execution failed: " ++ no_strip_message (ex_sql ex)))
               (Some (ex_sql ex)) (Some resolved)),
     []).
Proof.
  intros Hx Hc Ht Hn. unfold answer_from_text. rewrite Hx, Hc, Ht. cbn [andb negb].
  destruct (ex_sql ex); try discriminate; reflexivity.
Qed.

Lemma non_text_sql_is_reported_witness :
  let text := "{" ++ quoted "sql" ++ ": 42}" in
  answer_from_text (Deployment.world None Deployment.store_empty) "fred_rates" text
  = (Return (RespError
               (Str "SQL execution failed: 'int' object has no attribute 'strip'")
               (Some (Int 42)) (Some "fred_rates")),
     []).
Proof.
  intros text.
  apply (non_text_sql_is_reported
           (Deployment.world None Deployment.store_empty) "fred_rates" text
           {| ex_sql := Int 42; ex_meta := Some []; ex_needs_clar := false;
              ex_message := None_ |});
    vm_compute; reflexivity.
Defined.

End AnswerExtras.

Section FallbackExtras.
Import PyStr PyStrFacts Py Json Guardrails Parser Retrieval Agent AgentParts.

(** The pairs of schema and table that [load_metadata] registers. *)
Lemma loaded_tables (schema table : string) :
  In (schema, table)
     (map (fun r => (Grounding.schema (snd r), Grounding.table (snd r)))
          (Grounding.nlq_table_registry LoadedMetadata.metadata)) ->
  schema = "main"
  /\ In table ["cpfb_state_delinquency_30_89"; "cpfb_state_delinquency_90_plus";
               "cpfb_metro_delinquency_30_89"; "cpfb_metro_delinquency_90_plus";
               "fred_mortgage_rates"; "fhfa_hpi_state"].
Proof.
  cbn. intros H.
  repeat (destruct H as [H | H]; [injection H as <- <-; split; [reflexivity |];
                                  cbn; tauto |]).
  contradiction.
Qed.

Lemma fallback_statement_valid (ord : SetIter) (q schema table : string) :
  schema = "main" ->
  In table ["cpfb_state_delinquency_30_89"; "cpfb_state_delinquency_90_plus";
            "cpfb_metro_delinquency_30_89"; "cpfb_metro_delinquency_90_plus";
            "fred_mortgage_rates"; "fhfa_hpi_state"] ->
  fst (validate_sql ord (injected (fallback_statement q (full_table_name schema table)))
         None) = true.
Proof.
  intros -> Ht. rewrite (validate_sql_verdict_of_order ord first_seen).
  unfold fallback_statement.
  destruct (contains "delinquency" q || contains "30-89" q || contains "90" q).
  { destruct (contains "state" q); vm_compute; reflexivity. }
  destruct (contains "rate" q || contains "mortgage" q); [vm_compute; reflexivity |].
  destruct (contains "hpi" q || contains "house price" q || contains "index" q);
    [vm_compute; reflexivity |].
  cbn [In] in Ht.
  repeat (destruct Ht as [<- | Ht]; [vm_compute; reflexivity |]).
  contradiction.
Qed.

(** X9.  Over the metadata that [load_metadata] registers, the fallback
    never has its statement refused: whatever the question, and
    whichever of the registered tables the store lists first for the
    dataset, the statement passes the validator and is sent to the
    store, and the response is [ok], with the store's columns and rows,
    when the store returns, and an error with the store's message when
    it raises. *)
Theorem fallback_over_loaded_metadata_reaches_store
    (w : World) (question d context schema table : string)
    (rest : list (string * string)) :
  table_registry w d = (schema, table) :: rest ->
  In (schema, table)
     (map (fun r => (Grounding.schema (snd r), Grounding.table (snd r)))
          (Grounding.nlq_table_registry LoadedMetadata.metadata)) ->
  let s := fallback_statement (lower question) (full_table_name schema table) in
  snd (_fallback_sql w question d context) = [EvRegistry d; EvExecute (injected s)]
  /\ fst (validate_sql (set_order w) (injected s) None) = true
  /\ fst (_fallback_sql w question d context)
     = match store_execute w (injected s) with
       | Return (columns, rs) =>
           RespOk d (Str s) columns rs (fallback_explanation table)
       | Raise e => RespError (Str e) None None
       end.
Proof.
  intros Hr Hin. cbv zeta.
  destruct (fallback_cases w question d context)
    as [[He _] | [schema' [table' [rest' [Ht H]]]]].
  { rewrite Hr in He. discriminate. }
  cbv zeta in H. rewrite Hr in Ht. injection Ht as <- <- <-.
  destruct (loaded_tables _ _ Hin) as [Hs Htab].
  pose proof (fallback_statement_valid (set_order w) (lower question) _ _ Hs Htab)
    as Hv.
  destruct H as [[Hf _] | [[_ [e [He ->]]] | [_ [columns [rs [He ->]]]]]].
  - rewrite Hv in Hf. discriminate.
  - cbn [fst snd]. rewrite He. now repeat split.
  - cbn [fst snd]. rewrite He. now repeat split.
Qed.

Lemma fallback_over_loaded_metadata_reaches_store_witness :
  let w := Grounding.agent first_seen LoadedMetadata.metadata None
             Deployment.store_without_tables in
  let s := fallback_statement (lower "How many loans are there?")
             (full_table_name "main" "fhfa_hpi_state") in
  snd (_fallback_sql w "How many loans are there?" "fhfa_hpi" "")
  = [EvRegistry "fhfa_hpi"; EvExecute (injected s)]
  /\ fst (validate_sql (set_order w) (injected s) None) = true
  /\ fst (_fallback_sql w "How many loans are there?" "fhfa_hpi" "")
     = match store_execute w (injected s) with
       | Return (columns, rs) =>
           RespOk "fhfa_hpi" (Str s) columns rs (fallback_explanation "fhfa_hpi_state")
       | Raise e => RespError (Str e) None None
       end.
Proof.
  intros w.
  apply (fallback_over_loaded_metadata_reaches_store w "How many loans are there?"
           "fhfa_hpi" "" "main" "fhfa_hpi_state" []).
  - reflexivity.
  - cbn. tauto.
Defined.

End FallbackExtras.

(** ** The endpoints *)

Section EndpointExtras.
Import PyStr PyStrFacts Py Json Guardrails Parser Retrieval Agent AgentParts Main.

(** X10.  The round trip of a disambiguation: when [/nlq/query] answers
    [needs_selection], sending the same question to [/nlq/disambiguate]
    with the identifier of any of the choices, provided it is not
    empty, builds the context for that dataset and no other, and is not
    answered with [needs_selection] again. *)
Theorem disambiguation_round_trip
    (w : World) (req : QueryRequest) (choices : list choice) (message : string)
    (c : choice) :
  fst (nlq_query true w req) = Return (RespNeedsSelection choices message) ->
  In c choices ->
  choice_dataset_id c <> "" ->
  let req' := {| d_question := question req;
                 d_dataset_id := choice_dataset_id c;
                 d_user_id := user_id req |} in
  contexts_built (snd (nlq_disambiguate true w req')) = [choice_dataset_id c]
  /\ forall choices' message',
       fst (nlq_disambiguate true w req')
       <> Return (RespNeedsSelection choices' message').
Proof.
  unfold nlq_query, nlq_disambiguate. cbn [negb d_question d_dataset_id].
  rewrite !query_run.
  destruct (retriever_retrieve w (question req)) as [|c0 rest]; [discriminate |].
  destruct (select c0 (c0 :: rest) (preferred_dataset req) default_threshold)
    as [resp | sel] eqn:Es.
  2:{ intros H. exfalso. revert H. apply proceed_not_needs_selection. }
  cbn [fst]. intros H Hin Hne. injection H as ->.
  apply select_asks in Es. destruct Es as [_ [_ H]]. injection H as -> _.
  change (In c (map to_choice (firstn 3 (c0 :: rest)))) in Hin.
  apply in_map_iff in Hin. destruct Hin as [cand [<- Hin]].
  apply firstn_subset in Hin. cbn [to_choice choice_dataset_id] in Hne |- *.
  rewrite (select_supplied _ _ _ _ Hne).
  destruct (find_among (Retrieval.dataset_id cand) (c0 :: rest))
    as [c' [Hf [_ Hd]]]; [now exists cand |].
  rewrite Hf. cbn [fst snd contexts_built flat_map app]. split.
  - fold (contexts_built (snd (proceed w (question req) c'))).
    rewrite proceed_context. now rewrite Hd.
  - intros choices' message'. apply proceed_not_needs_selection.
Qed.

Lemma disambiguation_round_trip_witness :
  let w := Deployment.world_with_scores 0.81 0.75 in
  let req' := {| d_question := "mortgage delinquency"; d_dataset_id := "fred_rates";
                 d_user_id := None |} in
  contexts_built (snd (nlq_disambiguate true w req')) = ["fred_rates"]
  /\ forall choices' message',
       fst (nlq_disambiguate true w req')
       <> Return (RespNeedsSelection choices' message').
Proof.
  intros w.
  refine (disambiguation_round_trip w
            {| question := "mortgage delinquency"; user_id := None;
               preferred_dataset := None; time_zone := None |}
            _ _
            {| choice_dataset_id := "fred_rates"; choice_label := "FRED Mortgage Rates";
               choice_why := "Mortgage rates" |} _ _ _).
  - vm_compute. reflexivity.
  - right. left. reflexivity.
  - discriminate.
Defined.

Lemma generated_app (l1 l2 : list event) :
  generated (l1 ++ l2) = (generated l1 ++ generated l2)%list.
Proof.
  unfold generated. apply flat_map_app.
Qed.

(** X11.  An agent built without an API key (none, or the empty
    string), or where LangChain is not installed, never prompts a
    generative backend; the SQL of each of its [ok] responses is the
    template that the words of the question and the first registered
    table of the dataset determine, and its explanation is the
    fallback's. *)
Theorem agent_without_key_answers_from_templates
    (w : World) (langchain_available : bool) (key : option string)
    (client : string -> string)
    (question : string) (dataset : option string) (threshold : float) :
  llm w = _get_llm langchain_available key client ->
  langchain_available = false \/ supplied key = None ->
  generated (snd (query w question dataset threshold)) = []
  /\ forall d sql columns rs expl,
       fst (query w question dataset threshold)
       = Return (RespOk d sql columns rs expl) ->
       exists schema table rest,
         table_registry w d = (schema, table) :: rest
         /\ sql = Str (fallback_statement (lower question)
                         (full_table_name schema table))
         /\ expl = fallback_explanation table.
Proof.
  intros Hl Hk.
  assert (Hn : llm w = None).
  { rewrite Hl. unfold _get_llm. destruct Hk as [-> | ->]; [reflexivity |].
    now destruct langchain_available. }
  rewrite query_run.
  destruct (retriever_retrieve w question) as [|c0 rest];
    [split; [reflexivity | discriminate] |].
  destruct (select c0 (c0 :: rest) dataset threshold) as [resp | sel] eqn:Es.
  { split; [reflexivity |]. cbn [fst]. intros d sql columns rs expl H.
    injection H as ->. apply select_asks in Es. destruct Es as [_ [_ H]].
    discriminate. }
  rewrite proceed_unfold, Hn. cbv zeta. cbn [fst snd].
  set (d0 := Retrieval.dataset_id sel). set (ctx := build_context w d0).
  destruct (fallback_cases w question d0 ctx)
    as [[_ ->] | [schema [table [rest' [Ht H]]]]];
    [split; [reflexivity | discriminate] |].
  cbv zeta in H.
  destruct H as [[_ ->] | [[_ [e [_ ->]]] | [_ [columns' [rs' [_ ->]]]]]];
    cbn [fst snd]; (split; [reflexivity |]); try discriminate.
  intros d sql columns rs expl H. injection H as <- <- <- <- <-.
  now exists schema, table, rest'.
Qed.

Lemma agent_without_key_answers_from_templates_witness :
  let w := Deployment.world None Deployment.store_empty in
  generated (snd (query w "weekly mortgage rates" None default_threshold)) = []
  /\ forall d sql columns rs expl,
       fst (query w "weekly mortgage rates" None default_threshold)
       = Return (RespOk d sql columns rs expl) ->
       exists schema table rest,
         table_registry w d = (schema, table) :: rest
         /\ sql = Str (fallback_statement (lower "weekly mortgage rates")
                         (full_table_name schema table))
         /\ expl = fallback_explanation table.
Proof.
  intros w.
  apply (agent_without_key_answers_from_templates w true (Some "") (fun _ => "")).
  - reflexivity.
  - right. reflexivity.
Defined.

End EndpointExtras.

(** ** The keyword strategy: count, ties, identifiers *)

Section KeywordExtras.
Import PyStr PyStrFacts Retrieval.
Local Open Scope Q_scope.

Lemma insert_by_score_length (x : dataset_row * Q) (l : list (dataset_row * Q)) :
  List.length (insert_by_score x l) = S (List.length l).
Proof.
  induction l as [|y l IH]; cbn [insert_by_score]; [reflexivity |].
  destruct (Qle_bool (snd y) (snd x)); cbn [List.length]; [reflexivity |].
  now rewrite IH.
Qed.

Lemma sort_by_score_length (l : list (dataset_row * Q)) :
  List.length (sort_by_score l) = List.length l.
Proof.
  unfold sort_by_score. induction l as [|x l IH]; cbn [fold_right]; [reflexivity |].
  now rewrite insert_by_score_length, IH.
Qed.

Lemma keyword_score_positive (ql : string) (row : dataset_row) :
  negb (Qle_bool (keyword_score ql row) 0)
  = Nat.ltb 0 (matched_words ql (lower (row_name row ++ " " ++ row_desc row))).
Proof.
  unfold keyword_score, Qle_bool. cbn [Qnum Qden].
  destruct (matched_words ql _) as [|m]; [reflexivity |].
  rewrite Z.mul_1_r. cbn [Z.mul]. reflexivity.
Qed.

Lemma scored_rows_map (ql : string) (rows : list dataset_row) :
  scored_rows ql rows
  = map (fun row => (row, keyword_score ql row))
        (filter (fun row =>
                   Nat.ltb 0 (matched_words ql
                                (lower (row_name row ++ " " ++ row_desc row))))
                rows).
Proof.
  unfold scored_rows. induction rows as [|row rows IH]; [reflexivity |].
  cbn [map filter snd]. rewrite keyword_score_positive, IH.
  now destruct (Nat.ltb 0 _).
Qed.

(** X12.  The keyword strategy returns as many candidates as there are
    registry rows in whose lower-cased name and description a word of
    the question, longer than two characters, occurs, up to [top_k]: no
    such row is left out while there is room, and no other row is
    returned. *)
Theorem retrieve_count (rows : list dataset_row) (top_k : nat) (question : string) :
  List.length (retrieve rows top_k question)
  = Nat.min top_k
      (List.length
         (filter (fun row =>
                    Nat.ltb 0 (matched_words (lower question)
                                 (lower (row_name row ++ " " ++ row_desc row))))
                 rows)).
Proof.
  unfold retrieve.
  rewrite length_map, length_firstn, sort_by_score_length, scored_rows_map.
  now rewrite length_map.
Qed.

Lemma insert_by_score_front (x : dataset_row * Q) (l : list (dataset_row * Q)) :
  Forall (by_score x) l -> insert_by_score x l = x :: l.
Proof.
  intros H. destruct l as [|y l]; [reflexivity |]. cbn [insert_by_score].
  apply Forall_inv in H. unfold by_score in H.
  apply Qle_bool_iff in H. now rewrite H.
Qed.

Lemma sort_by_score_sorted_id (l : list (dataset_row * Q)) :
  StronglySorted by_score l -> sort_by_score l = l.
Proof.
  induction 1 as [|x l Hs IH Hx]; [reflexivity |].
  cbn [sort_by_score fold_right]. fold (sort_by_score l). rewrite IH.
  now apply insert_by_score_front.
Qed.

(** X13.  The sort of the keyword strategy is stable: when the rows with
    a positive score already stand in the registry in the order of
    their scores, highest first and ties included, the candidates are
    the first [top_k] of them in the order of the registry.  Among rows
    of equal score the one that the registry lists first comes
    first. *)
Theorem retrieve_keeps_registry_order
    (rows : list dataset_row) (top_k : nat) (question : string) :
  StronglySorted by_score (scored_rows (lower question) rows) ->
  retrieve rows top_k question
  = map to_candidate (firstn top_k (scored_rows (lower question) rows)).
Proof.
  intros H. unfold retrieve. now rewrite sort_by_score_sorted_id.
Qed.

Lemma retrieve_keeps_registry_order_witness :
  map dataset_id (retrieve Deployment.dataset_registry 2 "mortgage data by state")
  = ["cpfb_delinquency"; "fred_rates"].
Proof.
  rewrite (retrieve_keeps_registry_order Deployment.dataset_registry 2
             "mortgage data by state").
  - vm_compute. reflexivity.
  - repeat constructor; vm_compute; discriminate.
Defined.


Lemma insert_by_score_ids (x : dataset_row * Q) (l : list (dataset_row * Q)) :
  NoDup (map (fun c => row_id (fst c)) (x :: l)) ->
  NoDup (map (fun c => row_id (fst c)) (insert_by_score x l)).
Proof.
  induction l as [|y l IH]; cbn [insert_by_score]; [trivial |].
  destruct (Qle_bool (snd y) (snd x)); [trivial |].
  cbn [map]. intros H. inversion H as [|a m Hx Hyl]; subst.
  inversion Hyl as [|b n Hy Hl]; subst. constructor.
  - intros Hin. apply in_map_iff in Hin. destruct Hin as [z [Hz Hin]].
    apply insert_by_score_In in Hin. destruct Hin as [-> | Hin].
    + apply Hx. left. now symmetry.
    + apply Hy. apply in_map_iff. now exists z.
  - apply IH. cbn [map]. constructor; [| exact Hl].
    intros Hin. apply Hx. now right.
Qed.

Lemma sort_by_score_ids (l : list (dataset_row * Q)) :
  NoDup (map (fun c => row_id (fst c)) l) ->
  NoDup (map (fun c => row_id (fst c)) (sort_by_score l)).
Proof.
  unfold sort_by_score. induction l as [|x l IH]; cbn [fold_right map]; [trivial |].
  intros H. apply insert_by_score_ids. cbn [map].
  inversion H as [|a m Hx Hl]; subst. constructor; [| now apply IH].
  intros Hin. apply Hx. apply in_map_iff in Hin. destruct Hin as [z [Hz Hin]].
  apply in_map_iff. exists z. split; [exact Hz |]. now apply sort_by_score_In.
Qed.

Lemma firstn_ids {A B : Type} (f : A -> B) (n : nat) (l : list A) :
  NoDup (map f l) -> NoDup (map f (firstn n l)).
Proof.
  revert l. induction n as [|n IH]; intros [|x l]; cbn; try constructor.
  - inversion H as [|a m Hx Hl]; subst. intros Hin. apply Hx.
    apply in_map_iff in Hin. destruct Hin as [z [Hz Hin]].
    apply in_map_iff. exists z. split; [exact Hz |]. now apply firstn_subset in Hin.
  - inversion H. now apply IH.
Qed.

(** A selection of rows with distinct identifiers has distinct
    identifiers. *)
Lemma filter_ids (keep : dataset_row -> bool) (rows : list dataset_row) :
  NoDup (map row_id rows) -> NoDup (map row_id (filter keep rows)).
Proof.
  intros Hn. induction rows as [|row rows IH]; cbn [filter map]; [constructor |].
  inversion Hn as [|a m Hx Hl]; subst.
  destruct (keep row); [| now apply IH]. cbn [map]. constructor; [| now apply IH].
  intros Hin. apply Hx. apply in_map_iff in Hin. destruct Hin as [z [Hz Hin]].
  apply in_map_iff. exists z. split; [exact Hz |]. now apply filter_In in Hin.
Qed.

(** X14.  When the identifiers of the registry's rows are distinct, as
    its primary key makes them, so are the identifiers of the
    candidates: no dataset is offered twice. *)
Theorem retrieve_distinct_datasets
    (rows : list dataset_row) (top_k : nat) (question : string) :
  NoDup (map row_id rows) ->
  NoDup (map dataset_id (retrieve rows top_k question)).
Proof.
  intros H. unfold retrieve. rewrite map_map. cbn [to_candidate dataset_id].
  apply (firstn_ids (fun c : dataset_row * Q => row_id (fst c))), sort_by_score_ids.
  rewrite scored_rows_map, map_map. cbn [fst].
  now apply filter_ids.
Qed.

Lemma retrieve_distinct_datasets_witness :
  NoDup (map dataset_id
           (retrieve Deployment.dataset_registry default_top_k
              "mortgage data by state")).
Proof.
  apply (retrieve_distinct_datasets Deployment.dataset_registry default_top_k
           "mortgage data by state").
  repeat constructor; cbn; intuition discriminate.
Defined.

Lemma matched_words_le (ql text : string) :
  (matched_words ql text <= Nat.max (List.length (split_ws ql)) 1)%nat.
Proof.
  unfold matched_words.
  pose proof (filter_length_le
                (fun w => Nat.ltb 2 (String.length w) && contains w text)
                (split_ws ql)).
  lia.
Qed.

(** X15.  Every score that the keyword strategy returns lies between 0
    and 1: it is the rounded share of the question's words that were
    found. *)
Theorem retrieve_score_range
    (rows : list dataset_row) (top_k : nat) (question : string)
    (c : candidate Q) :
  In c (retrieve rows top_k question) -> 0 <= score c /\ score c <= 1.
Proof.
  unfold retrieve. intros H. apply in_map_iff in H. destruct H as [p [<- Hp]].
  apply firstn_subset, sort_by_score_In, scored_rows_In in Hp.
  destruct Hp as [_ [Hs Hpos]]. cbn [to_candidate score]. split.
  - assert (H0 : round4 0 == 0) by reflexivity. rewrite <- H0.
    apply round4_mono. lra.
  - assert (H1 : round4 1 == 1) by reflexivity. rewrite <- H1.
    apply round4_mono. rewrite Hs. unfold keyword_score, Qle. cbn [Qnum Qden].
    pose proof (matched_words_le (lower question)
                  (lower (row_name (fst p) ++ " " ++ row_desc (fst p)))) as Hm.
    rewrite Z.mul_1_r, Z.mul_1_l.
    rewrite <- positive_nat_Z, Nat2Pos.id by lia. lia.
Qed.

Lemma retrieve_score_range_witness :
  0 <= (4286 # 10000) /\ (4286 # 10000) <= 1.
Proof.
  apply (retrieve_score_range Deployment.dataset_registry default_top_k
           "What are mortgage delinquency rates by state?"
           {| dataset_id := "cpfb_delinquency";
              label := row_name (nth 0 Deployment.dataset_registry
                                   {| row_id := ""; row_name := ""; row_desc := "" |});
              why := row_desc (nth 0 Deployment.dataset_registry
                                 {| row_id := ""; row_name := ""; row_desc := "" |});
              score := 4286 # 10000 |}).
  left. vm_compute. reflexivity.
Defined.

End KeywordExtras.

(** ** The context builder *)

Section ContextExtras.
Import PyStr PyStrFacts Py Retrieval Agent Grounding.

Lemma join_cons (sep l : string) (rest : list string) :
  exists b, join sep (l :: rest) = l ++ b.
Proof.
  destruct rest as [|m rest]; cbn [join].
  - exists "". now rewrite append_nil_r.
  - now eexists.
Qed.

Lemma join_cons2 (sep x y : string) (r : list string) :
  join sep (x :: y :: r) = x ++ sep ++ join sep (y :: r).
Proof.
  reflexivity.
Qed.

Lemma join_app (sep : string) (l1 l2 : list string) :
  l2 <> [] -> exists a, join sep (l1 ++ l2) = a ++ join sep l2.
Proof.
  intros H2. induction l1 as [|x l1 [a IH]]; [now exists "" |].
  cbn [app]. destruct (l1 ++ l2)%list as [|y r] eqn:E.
  - destruct l1; [cbn in E; contradiction | discriminate].
  - rewrite join_cons2, IH. exists (x ++ sep ++ a).
    now rewrite !append_assoc.
Qed.

Lemma join_app_l (sep : string) (l1 l2 : list string) :
  exists b, join sep (l1 ++ l2) = join sep l1 ++ b.
Proof.
  induction l1 as [|x l1 [b IH]]; [now exists (join sep l2) |].
  cbn [app]. destruct l1 as [|y l1].
  - cbn [app join]. destruct l2; [exists ""; now rewrite append_nil_r | now eexists].
  - cbn [app] in IH |- *. exists b. rewrite !join_cons2, IH.
    now rewrite !append_assoc.
Qed.

(** A run of consecutive lines appears in the joined text as its own
    joined text. *)
Lemma join_block (sep : string) (l1 block l2 : list string) :
  block <> [] ->
  contains (join sep block) (join sep (l1 ++ block ++ l2)) = true.
Proof.
  intros Hb. apply contains_spec.
  destruct (join_app sep l1 (block ++ l2)) as [a Ha].
  { destruct block; [contradiction | discriminate]. }
  destruct (join_app_l sep block l2) as [b Hb'].
  exists a, b. now rewrite Ha, Hb'.
Qed.

Lemma join_block_in (sep : string) (lines block : list string) :
  (exists l1 l2, lines = l1 ++ block ++ l2)%list -> block <> [] ->
  contains (join sep block) (join sep lines) = true.
Proof.
  intros [l1 [l2 ->]] Hb. now apply join_block.
Qed.

Lemma join_empty (sep : string) (lines : list string) :
  Forall (fun l => l <> "") lines -> join sep lines = "" -> lines = [].
Proof.
  intros Hl Hj. destruct lines as [|l rest]; [reflexivity |].
  destruct (join_cons sep l rest) as [b Hb]. rewrite Hb in Hj.
  apply Forall_inv in Hl. destruct l; [contradiction | discriminate].
Qed.

Lemma context_lines_nonempty (p : payload) :
  Forall (fun l => l <> "") (context_lines p).
Proof.
  unfold context_lines. rewrite !Forall_app. repeat split.
  - destruct (dataset p) as [ds|]; cbn [dataset_lines]; repeat constructor;
      discriminate.
  - apply Forall_forall. intros l Hl. apply in_flat_map in Hl.
    destruct Hl as [t [_ Hl]]. unfold table_lines in Hl.
    apply in_app_or in Hl. destruct Hl as [Hl | Hl].
    + cbn in Hl. destruct Hl as [<- | [<- | [<- | []]]]; discriminate.
    + destruct (truthy_text (example_filters t)); [| contradiction].
      destruct Hl as [<- | []]. discriminate.
  - apply Forall_forall. intros l Hl. apply in_map_iff in Hl.
    destruct Hl as [d [<- _]]. discriminate.
Qed.

(** X16.  The context of a dataset is the empty string exactly when the
    store holds nothing under its identifier: no row of the dataset
    registry, none of the table registry and no definition.  For an
    identifier that the store does not know, the generative backend is
    prompted with an empty context. *)
Theorem context_empty_iff_unregistered (conn : Store) (dataset_id : string) :
  _build_context conn dataset_id = ""
  <-> where_dataset dataset_id (nlq_dataset_registry conn) = []
      /\ where_dataset dataset_id (nlq_table_registry conn) = []
      /\ where_dataset dataset_id (nlq_domain_definitions conn) = [].
Proof.
  unfold _build_context, get_grounding_payload. split.
  - intros H. apply join_empty in H; [| apply context_lines_nonempty].
    unfold context_lines in H. cbn [dataset tables definitions] in H.
    apply app_eq_nil in H. destruct H as [Hd H].
    apply app_eq_nil in H. destruct H as [Ht Hf]. repeat split.
    + destruct (where_dataset dataset_id (nlq_dataset_registry conn));
        [reflexivity | discriminate].
    + destruct (where_dataset dataset_id (nlq_table_registry conn));
        [reflexivity | discriminate].
    + destruct (where_dataset dataset_id (nlq_domain_definitions conn));
        [reflexivity | discriminate].
  - intros [-> [-> ->]]. reflexivity.
Qed.

(** X17.  The context carries everything that the store holds under the
    identifier: for each table its qualified name, its description and
    its columns, on three consecutive lines, and for each definition its
    term and text on a line of its own. *)
Theorem context_carries_tables_and_definitions (conn : Store) (dataset_id : string) :
  (forall t,
     In t (where_dataset dataset_id (nlq_table_registry conn)) ->
     contains ("Table: " ++ schema t ++ "." ++ table t ++ nl
               ++ "  Description: " ++ desc t ++ nl
               ++ "  Columns: " ++ py_str (important_cols t))
              (_build_context conn dataset_id) = true)
  /\ (forall d,
        In d (where_dataset dataset_id (nlq_domain_definitions conn)) ->
        contains ("Definition - " ++ term d ++ ": " ++ definition d)
                 (_build_context conn dataset_id) = true).
Proof.
  unfold _build_context, get_grounding_payload, context_lines.
  cbn [dataset tables definitions].
  set (ds := dataset_lines _). split.
  - intros t Ht. apply in_split in Ht. destruct Ht as [l1 [l2 ->]].
    assert (H : contains (join nl (firstn 3 (table_lines t)))
                  (join nl (ds ++ flat_map table_lines (l1 ++ t :: l2)
                            ++ map definition_line
                                 (where_dataset dataset_id
                                    (nlq_domain_definitions conn)))) = true).
    { apply join_block_in; [| discriminate].
      exists (ds ++ flat_map table_lines l1)%list. eexists.
      rewrite flat_map_app. cbn [flat_map]. unfold table_lines at 2.
      cbn [firstn app]. rewrite <- !List.app_assoc. cbn [app]. reflexivity. }
    apply contains_spec in H. destruct H as [a [b H]].
    apply contains_spec. exists (a ++ nl), b. rewrite H.
    cbn [table_lines firstn app join]. now rewrite !append_assoc.
  - intros d Hd. apply in_split in Hd. destruct Hd as [l1 [l2 ->]].
    assert (H : contains (join nl [definition_line d])
                  (join nl (ds ++ flat_map table_lines
                                    (where_dataset dataset_id (nlq_table_registry conn))
                            ++ map definition_line (l1 ++ d :: l2))) = true).
    { apply join_block_in; [| discriminate].
      exists (ds ++ flat_map table_lines
                      (where_dataset dataset_id (nlq_table_registry conn))
              ++ map definition_line l1)%list.
      exists (map definition_line l2).
      rewrite map_app. cbn [map]. rewrite <- !List.app_assoc. reflexivity. }
    apply contains_spec in H. destruct H as [a [b H]].
    apply contains_spec. exists (a ++ nl), b. rewrite H.
    unfold definition_line. cbn [join]. now rewrite !append_assoc.
Qed.

End ContextExtras.

Section GroundedRuns.
Import PyStr PyStrFacts Py Guardrails Retrieval Agent AgentParts Grounding.

Lemma where_dataset_unique {A : Type} (k : string) (v : A) (rows : list (string * A)) :
  NoDup (map fst rows) -> In (k, v) rows -> where_dataset k rows = [v].
Proof.
  unfold where_dataset. induction rows as [|[k' v'] rows IH]; [contradiction |].
  cbn [map fst filter In]. intros Hn [H | H].
  - injection H as -> ->. rewrite String.eqb_refl. cbn [map snd]. f_equal.
    inversion Hn as [|a m Hk Hr]; subst.
    clear IH Hn Hr. induction rows as [|[k2 v2] rows IH]; [reflexivity |].
    cbn [filter fst]. destruct (String.eqb k2 k) eqn:E.
    + apply String.eqb_eq in E. subst. exfalso. apply Hk. now left.
    + apply IH. intros Hin. apply Hk. now right.
  - inversion Hn as [|a m Hk Hr]; subst.
    destruct (String.eqb k' k) eqn:E; [| now apply IH].
    apply String.eqb_eq in E. subst. exfalso. apply Hk.
    apply in_map_iff. now exists (k, v).
Qed.

(** A candidate of the keyword strategy stands for a row of the dataset
    registry. *)
Lemma retrieve_floats_registered
    (conn : Store) (top_k : nat) (question : string) (c : candidate float) :
  In c (retrieve_floats (registry_rows conn) top_k question) ->
  exists info, In (Retrieval.dataset_id c, info) (nlq_dataset_registry conn)
               /\ label c = name info.
Proof.
  unfold retrieve_floats, retrieve. rewrite map_map. intros H.
  apply in_map_iff in H. destruct H as [[row q] [<- Hp]].
  apply firstn_subset, sort_by_score_In, scored_rows_In in Hp.
  destruct Hp as [Hin _]. unfold registry_rows in Hin. cbn [fst] in Hin.
  apply in_map_iff in Hin. destruct Hin as [[k info] [<- Hin]].
  exists info. cbn. now split.
Qed.

(** X18.  Over a store whose dataset identifiers are distinct, an agent
    that retrieves by keywords builds a context only for a dataset of
    the registry, whatever identifier the caller supplies: the context
    of every run opens with the name and the domain of a registered
    dataset, and is never empty. *)
Theorem agent_context_is_grounded
    (ord : SetIter) (conn : Store) (backend : option (string -> string))
    (sql_store : string -> result (list string * rows))
    (question : string) (dataset_id : option string) (threshold : float)
    (d : string) :
  NoDup (map fst (nlq_dataset_registry conn)) ->
  In d (contexts_built
          (snd (query (agent ord conn backend sql_store) question dataset_id
                  threshold))) ->
  exists info,
    In (d, info) (nlq_dataset_registry conn)
    /\ startswith ("Dataset: " ++ name info ++ " (" ++ domain info ++ ")")
                  (_build_context conn d) = true
    /\ _build_context conn d <> "".
Proof.
  intros Hn. rewrite query_run.
  set (w := agent ord conn backend sql_store).
  destruct (retriever_retrieve w question) as [|c0 rest] eqn:Er; [contradiction |].
  destruct (select c0 (c0 :: rest) dataset_id threshold) as [resp | sel] eqn:Es;
    [contradiction |].
  cbn [snd contexts_built flat_map app].
  fold (contexts_built (snd (proceed w question sel))).
  rewrite proceed_context. intros [<- | []].
  apply select_among in Es. rewrite <- Er in Es.
  apply retrieve_floats_registered in Es. destruct Es as [info [Hin _]].
  exists info. split; [exact Hin |].
  assert (Hs : startswith ("Dataset: " ++ name info ++ " (" ++ domain info ++ ")")
                 (_build_context conn (Retrieval.dataset_id sel)) = true).
  { unfold _build_context, get_grounding_payload, context_lines.
    cbn [dataset tables definitions].
    rewrite (where_dataset_unique _ _ _ Hn Hin). cbn [hd_error dataset_lines app].
    apply startswith_spec. apply join_cons. }
  split; [exact Hs |]. intros He. rewrite He in Hs. discriminate.
Qed.

Lemma agent_context_is_grounded_witness :
  exists info,
    In ("cpfb_delinquency", info) (nlq_dataset_registry LoadedMetadata.metadata)
    /\ startswith ("Dataset: " ++ name info ++ " (" ++ domain info ++ ")")
                  (_build_context LoadedMetadata.metadata "cpfb_delinquency") = true
    /\ _build_context LoadedMetadata.metadata "cpfb_delinquency" <> "".
Proof.
  apply (agent_context_is_grounded first_seen LoadedMetadata.metadata None
           Deployment.store_empty "mortgage delinquency by state"
           (Some "no_such_dataset") default_threshold "cpfb_delinquency").
  - repeat constructor; cbn; intuition discriminate.
  - vm_compute. left. reflexivity.
Defined.

End GroundedRuns.

(** ** The vector strategy *)

Section VectorExtras.
Import PyStr PyStrFacts Retrieval VectorRetrieval.

Lemma get_add_score (k did : string) (s : float) (scores : list (string * float)) :
  get k (add_score did s scores)
  = if String.eqb did k
    then Some (PrimFloat.add (match get did scores with Some v => v | None => 0%float end) s)
    else get k scores.
Proof.
  induction scores as [|[k0 v0] r IH]; cbn [add_score get].
  - reflexivity.
  - destruct (String.eqb k0 did) eqn:E0; cbn [get].
    + apply String.eqb_eq in E0. subst k0.
      destruct (String.eqb did k); reflexivity.
    + rewrite IH. destruct (String.eqb did k) eqn:E1; [| reflexivity].
      apply String.eqb_eq in E1. subst k. now rewrite E0.
Qed.

Lemma get_keys (k : string) (scores : list (string * float)) :
  get k scores <> None <-> In k (map fst scores).
Proof.
  induction scores as [|[k0 v0] r IH]; cbn [get map fst In]; [tauto |].
  destruct (String.eqb k0 k) eqn:E.
  - apply String.eqb_eq in E. split; [now left | discriminate].
  - apply String.eqb_neq in E. rewrite IH. tauto.
Qed.

Lemma get_In (k : string) (v : float) (scores : list (string * float)) :
  NoDup (map fst scores) -> In (k, v) scores -> get k scores = Some v.
Proof.
  induction scores as [|[k0 v0] r IH]; [contradiction |].
  cbn [map fst get In]. intros Hn [H | H].
  - injection H as -> ->. now rewrite String.eqb_refl.
  - inversion Hn as [|a m Hk Hr]; subst.
    destruct (String.eqb k0 k) eqn:E; [| now apply IH].
    apply String.eqb_eq in E. subst. exfalso. apply Hk.
    apply in_map_iff. now exists (k, v).
Qed.

Lemma add_score_keys (k did : string) (s : float) (scores : list (string * float)) :
  In k (map fst (add_score did s scores)) <-> k = did \/ In k (map fst scores).
Proof.
  induction scores as [|[k0 v0] r IH]; cbn [add_score map fst In].
  - intuition.
  - destruct (String.eqb k0 did) eqn:E; cbn [map fst In].
    + apply String.eqb_eq in E. subst. intuition.
    + rewrite IH. intuition.
Qed.

Lemma add_score_distinct (did : string) (s : float) (scores : list (string * float)) :
  NoDup (map fst scores) -> NoDup (map fst (add_score did s scores)).
Proof.
  induction scores as [|[k0 v0] r IH]; cbn [add_score map fst].
  - intros _. repeat constructor. intros [].
  - intros Hn. inversion Hn as [|a m Hk Hr]; subst.
    destruct (String.eqb k0 did) eqn:E; cbn [map fst].
    + now constructor.
    + constructor; [| now apply IH].
      intros Hin. apply add_score_keys in Hin. destruct Hin as [-> | Hin].
      * rewrite String.eqb_refl in E. discriminate.
      * now apply Hk.
Qed.

(** The loop, from any dictionary on. *)
Lemma loop_distinct (hits : list (option string * option float))
                    (scores : list (string * float)) :
  NoDup (map fst scores) ->
  NoDup (map fst
           (fold_left (fun sc h => add_score (did_of (fst h)) (hit_score (snd h)) sc)
                      hits scores)).
Proof.
  revert scores. induction hits as [|h hits IH]; intros scores Hn; [exact Hn |].
  cbn [fold_left]. apply IH. now apply add_score_distinct.
Qed.

Lemma loop_get (k : string) (hits : list (option string * option float))
               (scores : list (string * float)) :
  get k (fold_left (fun sc h => add_score (did_of (fst h)) (hit_score (snd h)) sc)
                   hits scores)
  = match hits_of k hits with
    | [] => get k scores
    | _ :: _ =>
        Some (summed (match get k scores with Some v => v | None => 0%float end)
                     (hits_of k hits))
    end.
Proof.
  revert scores. induction hits as [|h hits IH]; intros scores; [reflexivity |].
  cbn [fold_left]. rewrite IH, get_add_score. unfold hits_of. cbn [filter].
  fold (hits_of k hits).
  destruct (String.eqb (did_of (fst h)) k) eqn:E.
  - apply String.eqb_eq in E. subst k. cbn [summed fold_left].
    fold (summed (PrimFloat.add
                    (match get (did_of (fst h)) scores with
                     | Some v => v
                     | None => 0%float
                     end) (hit_score (snd h)))
                 (hits_of (did_of (fst h)) hits)).
    now destruct (hits_of (did_of (fst h)) hits).
  - reflexivity.
Qed.

Lemma accumulate_distinct (hits : list (option string * option float)) :
  NoDup (map fst (accumulate hits)).
Proof.
  apply loop_distinct. constructor.
Qed.

(** The dictionary of the loop holds, for each dataset that has a hit,
    the sum of its hits, and nothing else. *)
Lemma accumulate_In (k : string) (v : float)
                    (hits : list (option string * option float)) :
  In (k, v) (accumulate hits)
  <-> hits_of k hits <> [] /\ v = summed 0 (hits_of k hits).
Proof.
  pose proof (loop_get k hits []) as Hg. fold (accumulate hits) in Hg.
  cbn [get] in Hg. split.
  - intros Hin. apply (get_In _ _ _ (accumulate_distinct hits)) in Hin.
    rewrite Hin in Hg. destruct (hits_of k hits); [discriminate |].
    injection Hg as ->. split; [discriminate | reflexivity].
  - intros [Hne ->].
    assert (Hk : In k (map fst (accumulate hits))).
    { apply get_keys. rewrite Hg. destruct (hits_of k hits); [contradiction |].
      discriminate. }
    apply in_map_iff in Hk. destruct Hk as [[k' v'] [Hk Hin]]. cbn in Hk. subst k'.
    pose proof (get_In _ _ _ (accumulate_distinct hits) Hin) as Hv.
    rewrite Hg in Hv. destruct (hits_of k hits); [contradiction |].
    injection Hv as <-. exact Hin.
Qed.

Lemma insert_desc_In (x y : string * float) (l : list (string * float)) :
  In y (insert_desc x l) <-> y = x \/ In y l.
Proof.
  induction l as [|z l IH]; cbn [insert_desc].
  - cbn. intuition.
  - destruct (PrimFloat.ltb _ _); cbn [In].
    + rewrite IH. intuition.
    + intuition.
Qed.

Lemma sort_desc_In (y : string * float) (l : list (string * float)) :
  In y (sort_desc l) <-> In y l.
Proof.
  unfold sort_desc. induction l as [|x l IH]; cbn [fold_right In]; [tauto |].
  rewrite insert_desc_In, IH. intuition.
Qed.

Lemma insert_desc_length (x : string * float) (l : list (string * float)) :
  List.length (insert_desc x l) = S (List.length l).
Proof.
  induction l as [|y l IH]; cbn [insert_desc]; [reflexivity |].
  destruct (PrimFloat.ltb _ _); cbn [List.length]; [now rewrite IH | reflexivity].
Qed.

Lemma sort_desc_length (l : list (string * float)) :
  List.length (sort_desc l) = List.length l.
Proof.
  unfold sort_desc. induction l as [|x l IH]; cbn [fold_right]; [reflexivity |].
  now rewrite insert_desc_length, IH.
Qed.

Lemma insert_desc_distinct (x : string * float) (l : list (string * float)) :
  NoDup (map fst (x :: l)) -> NoDup (map fst (insert_desc x l)).
Proof.
  induction l as [|y l IH]; cbn [insert_desc]; [trivial |].
  destruct (PrimFloat.ltb _ _); [| trivial].
  cbn [map]. intros H. inversion H as [|a m Hx Hyl]; subst.
  inversion Hyl as [|b n Hy Hl]; subst. constructor.
  - intros Hin. apply in_map_iff in Hin. destruct Hin as [z [Hz Hin]].
    apply insert_desc_In in Hin. destruct Hin as [-> | Hin].
    + apply Hx. left. now symmetry.
    + apply Hy. apply in_map_iff. now exists z.
  - apply IH. cbn [map]. constructor; [| exact Hl].
    intros Hin. apply Hx. now right.
Qed.

Lemma sort_desc_distinct (l : list (string * float)) :
  NoDup (map fst l) -> NoDup (map fst (sort_desc l)).
Proof.
  unfold sort_desc. induction l as [|x l IH]; cbn [fold_right map]; [trivial |].
  intros H. apply insert_desc_distinct. cbn [map].
  inversion H as [|a m Hx Hl]; subst. constructor; [| now apply IH].
  intros Hin. apply Hx. apply in_map_iff in Hin. destruct Hin as [z [Hz Hin]].
  apply in_map_iff. exists z. split; [exact Hz |]. now apply sort_desc_In.
Qed.

(** X19.  Under the vector strategy each candidate stands for a dataset
    that has at least one hit in the collection's answer, and its score
    is the rounding of the sum, formed from 0 in the order of the
    answer, of [1 - distance] over exactly the hits of that dataset (a
    missing or zero distance counting as 0).  Its label and reason are
    the name and description of the first registry row with that
    identifier; without such a row the label is the identifier and the
    reason is empty. *)
Theorem vector_candidate_sums_its_hits
    (py_round4 : float -> float) (rows : list dataset_row) (top_k : nat)
    (meta_list : list (option string)) (dist_list : list (option float))
    (c : candidate float) :
  In c (retrieve_vector py_round4 rows top_k meta_list dist_list) ->
  let mine := hits_of (dataset_id c) (combine meta_list dist_list) in
  mine <> []
  /\ score c = py_round4 (summed 0 mine)
  /\ label c = match info_of rows (dataset_id c) with
               | Some r => row_name r
               | None => dataset_id c
               end
  /\ why c = match info_of rows (dataset_id c) with
             | Some r => row_desc r
             | None => ""
             end.
Proof.
  unfold retrieve_vector. intros H. apply in_map_iff in H.
  destruct H as [[k v] [<- Hin]]. cbn [dataset_id label why score fst snd].
  apply firstn_subset, sort_desc_In, accumulate_In in Hin.
  destruct Hin as [Hne ->]. now repeat split.
Qed.

Lemma vector_candidate_sums_its_hits_witness :
  let metas := [Some "fred_rates"; Some "cpfb_delinquency"; Some "fred_rates"] in
  let dists := [Some 0.25%float; Some 0.5%float; None] in
  let c := {| dataset_id := "fred_rates"; label := "FRED Mortgage Rates";
              why := row_desc (nth 1 Deployment.dataset_registry
                                 {| row_id := ""; row_name := ""; row_desc := "" |});
              score := 1.75%float |} in
  let mine := hits_of (dataset_id c) (combine metas dists) in
  mine <> []
  /\ score c = summed 0 mine
  /\ label c = match info_of Deployment.dataset_registry (dataset_id c) with
               | Some r => row_name r
               | None => dataset_id c
               end
  /\ why c = match info_of Deployment.dataset_registry (dataset_id c) with
             | Some r => row_desc r
             | None => ""
             end.
Proof.
  intros metas dists c.
  apply (vector_candidate_sums_its_hits (fun x => x) Deployment.dataset_registry 3
           metas dists c).
  left. vm_compute. reflexivity.
Defined.

Lemma hits_of_ids (k : string) (hits : list (option string * option float)) :
  hits_of k hits <> [] <-> In k (map (fun h => did_of (fst h)) hits).
Proof.
  unfold hits_of. induction hits as [|h hits IH]; cbn [filter map In]; [tauto |].
  destruct (String.eqb (did_of (fst h)) k) eqn:E.
  - apply String.eqb_eq in E. split; [now left | discriminate].
  - apply String.eqb_neq in E. rewrite IH. tauto.
Qed.

Lemma accumulate_keys (k : string) (hits : list (option string * option float)) :
  In k (map fst (accumulate hits)) <-> In k (map (fun h => did_of (fst h)) hits).
Proof.
  rewrite <- hits_of_ids. split.
  - intros H. apply in_map_iff in H. destruct H as [[k' v] [Hk Hin]].
    cbn in Hk. subst k'. now apply accumulate_In in Hin.
  - intros H. apply in_map_iff. exists (k, summed 0 (hits_of k hits)).
    split; [reflexivity |]. now apply accumulate_In.
Qed.

(** X20.  The vector strategy offers no dataset twice, however many of
    the hits belong to it, and returns as many candidates as there are
    distinct dataset identifiers among the hits, up to [top_k]. *)
Theorem vector_candidates_distinct
    (py_round4 : float -> float) (rows : list dataset_row) (top_k : nat)
    (meta_list : list (option string)) (dist_list : list (option float)) :
  let result := retrieve_vector py_round4 rows top_k meta_list dist_list in
  NoDup (map dataset_id result)
  /\ List.length result
     = Nat.min top_k
         (List.length
            (nodup string_dec
               (map (fun h => did_of (fst h)) (combine meta_list dist_list)))).
Proof.
  cbv zeta. unfold retrieve_vector. rewrite map_map. cbn [dataset_id].
  set (hits := combine meta_list dist_list). split.
  - apply (firstn_ids (fun item : string * float => fst item)), sort_desc_distinct,
      accumulate_distinct.
  - rewrite length_map, length_firstn, sort_desc_length. f_equal.
    rewrite <- (length_map fst (accumulate hits)).
    apply Nat.le_antisymm; apply NoDup_incl_length.
    + apply accumulate_distinct.
    + intros k Hk. apply nodup_In. now apply accumulate_keys.
    + apply NoDup_nodup.
    + intros k Hk. apply nodup_In in Hk. now apply accumulate_keys.
Qed.

End VectorExtras.
